(** * BCX carbon-credit registry: ledger operations and integrity score

    A shallow embedding of the server actions of [src/actions/actions.ts]
    ([issueCredits], [purchaseCredits], [retireCredits]) over a model of the
    PostgreSQL tables they write to, and of [src/lib/integrity-score.ts].

    Conventions of the embedding.
    - Credit quantities, vintages and clock readings are [Z]: the columns are
      [INTEGER] and the actions receive JavaScript numbers that the storage
      layer only accepts when integral.
    - Prices ([DOUBLE PRECISION]) are rationals [Q]; the actions only copy
      them and multiply a quantity by a price.  The product is the exact
      one; the double of the program is that product rounded, and equals it
      when price and product are whole numbers of at most 2^53 in absolute
      value.  The properties C1 to C10 and X1 to X27 below rely on the
      value of a product in that case only.
    - A table is the list of its rows in insertion order.  The constraints of
      the schema that an action can run into (unique index on
      [serialNumber], foreign keys, "record to update not found", the
      32-bit range of the [INTEGER] columns) are checked by the storage
      operations below and make them return [None], which is the exception
      thrown by the client.  Row ids are generated by the
      storage layer; the id of a created ledger row is an input of the
      action that returns it.
    - [prisma.$transaction] is all-or-nothing: it is a computation in the
      option monad over the database, and the caller keeps the old database
      when it yields [None]. *)

From Stdlib Require Import ZArith QArith Qround Qminmax List String Ascii.
From Stdlib Require Import DecimalString Lia Lqa Bool.
Import ListNotations.

Open Scope Z_scope.

(** ** Strings *)

Module Str.

(** [String(n)] for an integral number [n]. *)
Definition ofZ (n : Z) : string := NilZero.string_of_int (Z.to_int n).

(** [s.toUpperCase()] on ASCII text (project ids are ASCII). *)
Definition upperChar (c : ascii) : ascii :=
  let n := nat_of_ascii c in
  if ((97 <=? n)%nat && (n <=? 122)%nat)%bool
  then ascii_of_nat (n - 32) else c.

Fixpoint toUpperCase (s : string) : string :=
  match s with
  | EmptyString => EmptyString
  | String c r => String (upperChar c) (toUpperCase r)
  end.

(** [s.slice(0, n)]. *)
Definition sliceTo (n : nat) (s : string) : string := substring 0 n s.

(** [s.slice(-n)]: the last [n] characters, the whole string when it is
    shorter. *)
Definition sliceLast (n : nat) (s : string) : string :=
  substring (String.length s - n) n s.

End Str.

(** ** Tables *)

Inductive CreditStatus := issued | traded | retired.
Inductive TransactionType := issuance | transfer | retirement | purchase.
Inductive TxStatus := confirmed | pending | failed.
Inductive AlertType := warning | critical | info.

Record CarbonProject := mkProject {
  project_id : string;
  developerId : string;
  vintage : Z;
  totalCredits : Z;
  availableCredits : Z;
  pricePerCredit : Q
}.

Record CarbonCredit := mkCredit {
  credit_projectId : string;
  serialNumber : string;
  credit_vintage : Z;
  credit_quantity : Z;
  credit_status : CreditStatus
}.

Record Transaction := mkTransaction {
  tx_id : string;
  tx_type : TransactionType;
  tx_projectId : string;
  fromUserId : option string;
  toUserId : string;
  tx_quantity : Z;
  tx_pricePerCredit : option Q;
  totalValue : option Q;
  tx_status : TxStatus;
  blockHash : option string
}.

Record BuyerHolding := mkHolding {
  buyerId : string;
  holding_projectId : string;
  quantity : Z;
  avgPrice : Q
}.

Record ComplianceAlert := mkAlert {
  alert_type : AlertType;
  entity : string;
  message : string;
  alert_projectId : option string;
  resolved : bool
}.

Record Database := mkDb {
  users : list string;
  carbon_projects : list CarbonProject;
  carbon_credits : list CarbonCredit;
  transactions : list Transaction;
  buyer_holdings : list BuyerHolding;
  compliance_alerts : list ComplianceAlert
}.

(** ** Storage operations *)

Module Prisma.

Definition bind {A B : Type} (m : option A) (k : A -> option B) : option B :=
  match m with
  | Some a => k a
  | None => None
  end.

Definition memb (s : string) (l : list string) : bool :=
  existsb (String.eqb s) l.

Definition userExists (db : Database) (id : string) : bool :=
  memb id (users db).

(** [carbonProject.findUnique({ where: { id } })]. *)
Definition findProject (db : Database) (id : string) : option CarbonProject :=
  find (fun p => String.eqb (project_id p) id) (carbon_projects db).

Definition projectExists (db : Database) (id : string) : bool :=
  match findProject db id with Some _ => true | None => false end.

Definition serialTaken (db : Database) (serial : string) : bool :=
  existsb (fun c => String.eqb (serialNumber c) serial) (carbon_credits db).

(** An [INTEGER] column holds a signed 32-bit integer: a statement that
    would store a value outside this range, or that is given one as an
    operand, fails with "integer out of range". *)
Definition int4 (n : Z) : bool :=
  ((-2147483648 <=? n) && (n <=? 2147483647))%bool.

(** [carbonCredit.create]: foreign key on the project, unique index on the
    serial number, range of [vintage] and [quantity]. *)
Definition createCredit (c : CarbonCredit) (db : Database) : option Database :=
  if (projectExists db (credit_projectId c)
      && negb (serialTaken db (serialNumber c))
      && int4 (credit_vintage c) && int4 (credit_quantity c))%bool
  then Some (mkDb (users db) (carbon_projects db)
                  (carbon_credits db ++ [c]) (transactions db)
                  (buyer_holdings db) (compliance_alerts db))
  else None.

Definition optUserExists (db : Database) (o : option string) : bool :=
  match o with Some u => userExists db u | None => true end.

(** [transaction.create]: foreign keys on the project and on both users,
    range of [quantity]. *)
Definition createTransaction (t : Transaction) (db : Database)
  : option Database :=
  if (projectExists db (tx_projectId t)
      && userExists db (toUserId t)
      && optUserExists db (fromUserId t)
      && int4 (tx_quantity t))%bool
  then Some (mkDb (users db) (carbon_projects db) (carbon_credits db)
                  (transactions db ++ [t])
                  (buyer_holdings db) (compliance_alerts db))
  else None.

(** Update of the row selected by a unique key: the first row that
    satisfies [sel]; [None] when there is none. *)
Fixpoint updateFirst {A : Type} (sel : A -> bool) (f : A -> A) (l : list A)
  : option (list A) :=
  match l with
  | [] => None
  | x :: r =>
      if sel x then Some (f x :: r)
      else match updateFirst sel f r with
           | Some r' => Some (x :: r')
           | None => None
           end
  end.

Definition withAvailable (p : CarbonProject) (a : Z) : CarbonProject :=
  mkProject (project_id p) (developerId p) (vintage p) (totalCredits p) a
            (pricePerCredit p).

(** The operand of an increment or decrement and the value it leaves in
    the column of the selected row, if there is one, are in range. *)
Definition fits {A : Type} (row : option A) (n : Z) (value : A -> Z) : bool :=
  (int4 n
   && match row with Some r => int4 (value r) | None => true end)%bool.

(** [carbonProject.update({ where: { id },
      data: { availableCredits: { decrement: n } } })]. *)
Definition decrementAvailable (id : string) (n : Z) (db : Database)
  : option Database :=
  if fits (findProject db id) n (fun p => availableCredits p - n)
  then match updateFirst (fun p => String.eqb (project_id p) id)
                         (fun p => withAvailable p (availableCredits p - n))
                         (carbon_projects db) with
       | Some ps =>
           Some (mkDb (users db) ps (carbon_credits db) (transactions db)
                      (buyer_holdings db) (compliance_alerts db))
       | None => None
       end
  else None.

Definition holdingKey (buyer project : string) (h : BuyerHolding) : bool :=
  (String.eqb (buyerId h) buyer && String.eqb (holding_projectId h) project)%bool.

Definition withQuantity (h : BuyerHolding) (n : Z) : BuyerHolding :=
  mkHolding (buyerId h) (holding_projectId h) n (avgPrice h).

Definition setHoldings (db : Database) (hs : list BuyerHolding) : Database :=
  mkDb (users db) (carbon_projects db) (carbon_credits db) (transactions db)
       hs (compliance_alerts db).

Definition findHolding (db : Database) (buyer project : string)
  : option BuyerHolding :=
  find (holdingKey buyer project) (buyer_holdings db).

(** [buyerHolding.upsert({ where: { buyerId_projectId },
      create: { buyerId, projectId, quantity, avgPrice },
      update: { quantity: { increment: n } } })]. *)
Definition upsertHolding (buyer project : string) (n : Z) (price : Q)
    (db : Database) : option Database :=
  if fits (findHolding db buyer project) n (fun h => quantity h + n)
  then match updateFirst (holdingKey buyer project)
                         (fun h => withQuantity h (quantity h + n))
                         (buyer_holdings db) with
       | Some hs => Some (setHoldings db hs)
       | None =>
           if (userExists db buyer && projectExists db project)%bool
           then Some (setHoldings db
                        (buyer_holdings db
                         ++ [mkHolding buyer project n price]))
           else None
       end
  else None.

(** [buyerHolding.update({ where: { buyerId_projectId },
      data: { quantity: { decrement: n } } })]. *)
Definition decrementHolding (buyer project : string) (n : Z) (db : Database)
  : option Database :=
  if fits (findHolding db buyer project) n (fun h => quantity h - n)
  then match updateFirst (holdingKey buyer project)
                         (fun h => withQuantity h (quantity h - n))
                         (buyer_holdings db) with
       | Some hs => Some (setHoldings db hs)
       | None => None
       end
  else None.

(** [complianceAlert.create]: optional foreign key on the project. *)
Definition createAlert (a : ComplianceAlert) (db : Database)
  : option Database :=
  if match alert_projectId a with
     | Some p => projectExists db p
     | None => true
     end
  then Some (mkDb (users db) (carbon_projects db) (carbon_credits db)
                  (transactions db) (buyer_holdings db)
                  (compliance_alerts db ++ [a]))
  else None.

End Prisma.

Notation "x <- m ;; k" := (Prisma.bind m (fun x => k))
  (at level 61, m at next level, right associativity).

(** ** Issuance: [issueCredits] *)

Inductive IssueResult :=
| IssueOk (serialNumbers : list string)   (* { success: true, serialNumbers } *)
| IssueNoProject                          (* { success: false } *)
| IssueThrown.                            (* the transaction threw *)

(** The serial of batch [i], generated when the clock reads [now]. *)
Definition serialOf (projectId : string) (project : CarbonProject)
    (now : Z) (i : nat) : string :=
  ("BCX-" ++ Str.sliceTo 6 (Str.toUpperCase projectId)
    ++ "-" ++ Str.ofZ (vintage project)
    ++ "-" ++ Str.sliceLast 4 (Str.ofZ (now + Z.of_nat i)))%string.

(** The body of the [for] loop, for the [indices] that remain;
    [clock i] is what [Date.now()] returns in iteration [i]. *)
Fixpoint issueLoop (projectId : string) (project : CarbonProject)
    (quantity batchSize : Z) (clock : nat -> Z) (indices : list nat)
    (serials : list string) (db : Database)
  : option (list string * Database) :=
  match indices with
  | [] => Some (serials, db)
  | i :: rest =>
      let serial := serialOf projectId project (clock i) i in
      db' <- Prisma.createCredit
               (mkCredit projectId serial (vintage project)
                         (quantity / batchSize) issued) db ;;
      issueLoop projectId project quantity batchSize clock rest
                (serials ++ [serial]) db'
  end.

(** The callback given to [prisma.$transaction]. *)
Definition issueTransaction (projectId : string) (project : CarbonProject)
    (quantity : Z) (clock : nat -> Z) (txId : string) (db : Database)
  : option (list string * Database) :=
  let batchSize := Z.min quantity 5 in
  r <- issueLoop projectId project quantity batchSize clock
         (seq 0 (Z.to_nat batchSize)) [] db ;;
  db' <- Prisma.createTransaction
           (mkTransaction txId issuance projectId None (developerId project)
                          quantity None None confirmed None) (snd r) ;;
  Some (fst r, db').

(** What [issueCredits] does once [findUnique] has answered [found]; [db] is
    the database at the time the transaction runs. *)
Definition issueAfterRead (found : option CarbonProject) (projectId : string)
    (quantity : Z) (clock : nat -> Z) (txId : string) (db : Database)
  : IssueResult * Database :=
  match found with
  | None => (IssueNoProject, db)
  | Some project =>
      match issueTransaction projectId project quantity clock txId db with
      | Some (serials, db') => (IssueOk serials, db')
      | None => (IssueThrown, db)
      end
  end.

Definition issueCredits (projectId : string) (quantity : Z)
    (clock : nat -> Z) (txId : string) (db : Database)
  : IssueResult * Database :=
  issueAfterRead (Prisma.findProject db projectId) projectId quantity clock
                 txId db.

(** ** Purchase: [purchaseCredits] *)

Inductive PurchaseError :=
| ProjectNotFound        (* "Project not found." *)
| NotEnoughCredits       (* "Not enough credits available." *)
| PurchaseThrown.        (* err.message of an exception caught by the action *)

Inductive PurchaseResult :=
| PurchaseOk (transactionId : string)     (* { success: true, transactionId } *)
| PurchaseFailed (error : PurchaseError). (* { success: false, error } *)

(** The three writes handed to [prisma.$transaction]; [project] is the row as
    it was read before the transaction, [hash] the random block hash. *)
Definition purchaseTransaction (project : CarbonProject) (projectId : string)
    (quantity : Z) (buyer : string) (txId hash : string) (db : Database)
  : option Database :=
  let totalValue := (inject_Z quantity * pricePerCredit project)%Q in
  db1 <- Prisma.createTransaction
           (mkTransaction txId purchase projectId (Some (developerId project))
                          buyer quantity (Some (pricePerCredit project))
                          (Some totalValue) confirmed (Some hash)) db ;;
  db2 <- Prisma.decrementAvailable projectId quantity db1 ;;
  Prisma.upsertHolding buyer projectId quantity (pricePerCredit project) db2.

(** What [purchaseCredits] does once [findUnique] has answered [found]; [db]
    is the database at the time the transaction runs. *)
Definition purchaseAfterRead (found : option CarbonProject)
    (projectId : string) (quantity : Z) (buyer : string) (txId hash : string)
    (db : Database) : PurchaseResult * Database :=
  match found with
  | None => (PurchaseFailed ProjectNotFound, db)
  | Some project =>
      if availableCredits project <? quantity
      then (PurchaseFailed NotEnoughCredits, db)
      else match purchaseTransaction project projectId quantity buyer
                                     txId hash db with
           | Some db' => (PurchaseOk txId, db')
           | None => (PurchaseFailed PurchaseThrown, db)
           end
  end.

(** One call of [purchaseCredits] that no other request interleaves with. *)
Definition purchaseCredits (projectId : string) (quantity : Z)
    (buyer : string) (txId hash : string) (db : Database)
  : PurchaseResult * Database :=
  purchaseAfterRead (Prisma.findProject db projectId) projectId quantity
                    buyer txId hash db.

(** ** Retirement: [retireCredits] *)

Inductive RetireResult :=
| RetireOk (retirementId : string)   (* { success: true, retirementId } *)
| RetireFailed.                      (* { success: false } *)

Definition retireMessage (quantity : Z) (projectId reason : string) : string :=
  (Str.ofZ quantity ++ " credits retired from project " ++ projectId
    ++ ". Reason: " ++ reason)%string.

Definition retireTransaction (projectId : string) (quantity : Z)
    (buyer reason : string) (txId : string) (db : Database)
  : option Database :=
  db1 <- Prisma.createTransaction
           (mkTransaction txId retirement projectId None buyer quantity
                          None None confirmed None) db ;;
  db2 <- Prisma.decrementHolding buyer projectId quantity db1 ;;
  Prisma.createAlert
    (mkAlert info buyer (retireMessage quantity projectId reason)
             (Some projectId) true) db2.

Definition retireCredits (projectId : string) (quantity : Z)
    (buyer reason : string) (txId : string) (db : Database)
  : RetireResult * Database :=
  match retireTransaction projectId quantity buyer reason txId db with
  | Some db' => (RetireOk txId, db')
  | None => (RetireFailed, db)
  end.

(** ** Concurrent purchase requests

    A request to [purchaseCredits] suspends at each [await]: once while
    [findUnique] reads the project, once while the transaction runs.  Other
    requests run in between.  A schedule names, step by step, the request
    that resumes. *)

Module Concurrent.

Inductive Phase :=
| Arrived
| HasRead (found : option CarbonProject)
| Returned (result : PurchaseResult).

Record Request := mkRequest {
  req_projectId : string;
  req_quantity : Z;
  req_buyer : string;
  req_txId : string;
  req_hash : string;
  req_phase : Phase
}.

Definition withPhase (r : Request) (ph : Phase) : Request :=
  mkRequest (req_projectId r) (req_quantity r) (req_buyer r) (req_txId r)
            (req_hash r) ph.

Definition newRequest (projectId : string) (quantity : Z)
    (buyer txId hash : string) : Request :=
  mkRequest projectId quantity buyer txId hash Arrived.

Definition resume (r : Request) (db : Database) : Request * Database :=
  match req_phase r with
  | Arrived =>
      (withPhase r (HasRead (Prisma.findProject db (req_projectId r))), db)
  | HasRead found =>
      let out := purchaseAfterRead found (req_projectId r) (req_quantity r)
                   (req_buyer r) (req_txId r) (req_hash r) db in
      (withPhase r (Returned (fst out)), snd out)
  | Returned _ => (r, db)
  end.

Fixpoint resumeNth (n : nat) (rs : list Request) (db : Database)
  : list Request * Database :=
  match rs, n with
  | [], _ => ([], db)
  | r :: rest, O => let out := resume r db in (fst out :: rest, snd out)
  | r :: rest, S m =>
      let out := resumeNth m rest db in (r :: fst out, snd out)
  end.

Fixpoint run (schedule : list nat) (rs : list Request) (db : Database)
  : list Request * Database :=
  match schedule with
  | [] => (rs, db)
  | n :: later =>
      let out := resumeNth n rs db in run later (fst out) (snd out)
  end.

Definition succeeded (r : Request) : bool :=
  match req_phase r with
  | Returned (PurchaseOk _) => true
  | _ => false
  end.

Definition shortOfSupply (r : Request) : bool :=
  match req_phase r with
  | Returned (PurchaseFailed NotEnoughCredits) => true
  | _ => false
  end.

Definition successes (rs : list Request) : nat :=
  List.length (filter succeeded rs).

End Concurrent.

(** ** Aggregates of the conservation equation *)

Fixpoint sumZ (l : list Z) : Z :=
  match l with
  | [] => 0
  | x :: r => x + sumZ r
  end.

(** Sum of the holdings of all buyers in one project. *)
Definition holdingsOf (projectId : string) (hs : list BuyerHolding) : Z :=
  sumZ (map quantity
          (filter (fun h => String.eqb (holding_projectId h) projectId) hs)).

Definition isRetirementOf (projectId : string) (t : Transaction) : bool :=
  match tx_type t with
  | retirement => String.eqb (tx_projectId t) projectId
  | _ => false
  end.

(** Sum of the retired quantities of one project, derived from the ledger. *)
Definition retiredOf (projectId : string) (ts : list Transaction) : Z :=
  sumZ (map tx_quantity (filter (isRetirementOf projectId) ts)).

(** Sum of the batch quantities of one project. *)
Definition batchesOf (projectId : string) (cs : list CarbonCredit) : Z :=
  sumZ (map credit_quantity
          (filter (fun c => String.eqb (credit_projectId c) projectId) cs)).

Definition balanced (db : Database) (p : CarbonProject) : Prop :=
  totalCredits p
  = availableCredits p
    + holdingsOf (project_id p) (buyer_holdings db)
    + retiredOf (project_id p) (transactions db).

(** The conservation invariant: the equation holds for every project the
    registry can look up. *)
Definition conservation (db : Database) : Prop :=
  forall id p, Prisma.findProject db id = Some p -> balanced db p.

Definition serials (db : Database) : list string :=
  map serialNumber (carbon_credits db).

(** ** A registry to run the actions on

    The demo project [prj001] with a developer and two buyers. *)

Module Demo.
Open Scope string_scope.

Definition project (available : Z) (price : Q) : CarbonProject :=
  mkProject "prj001" "u002" 2024 10000 available price.

Definition registry (available : Z) (price : Q)
    (hs : list BuyerHolding) (ts : list Transaction) : Database :=
  mkDb ["u001"; "u002"; "u003"; "u004"] [project available price] [] ts hs [].

Definition fresh : Database := registry 10000 100 [] [].

Definition clock (t0 : Z) : nat -> Z := fun _ => t0.
End Demo.

(** ** Integrity score: [src/lib/integrity-score.ts]

    Numbers are rationals.  The regular-expression engine, [Math.pow] and the
    values drawn from [Math.random] belong to the runtime and are taken as
    they come: [test] and [pow] are variables of the section, [random k] is
    the value of the [k]-th draw.  The range property below rests on the
    final clamp and rounding only, which are exact on every number; it does
    not depend on how the arithmetic before the clamp is rounded. *)

Module IntegrityScore.

Record RegExp := mkRegExp { source : string; ignoreCase : bool }.

(** [/source/i] and [/source/]. *)
Definition ri (source : string) : RegExp := mkRegExp source true.
Definition rs (source : string) : RegExp := mkRegExp source false.

Record KeywordRule := mkRule { patterns : list RegExp; weight : Q }.

Record IntegrityParameters := mkParameters {
  additionality : Z;
  permanence : Z;
  mrv : Z;
  leakage : Z;
  registryQuality : Z;
  correspondingAdjustment : Z
}.

Record IntegrityScoreResult := mkResult {
  score : Z;
  parameters : IntegrityParameters
}.

Open Scope string_scope.

Definition ADDITIONALITY_RULES : list KeywordRule := [
  mkRule [ri "\bnew\b"; ri "\binnovati"; ri "\bfirst[- ]of[- ]its[- ]kind\b"] 8;
  mkRule [ri "\badditionality\b"; ri "\bbeyond[- ]?bau\b";
          ri "\bbusiness[- ]as[- ]usual\b"] 10;
  mkRule [ri "\bnovel\b"; ri "\bpioneering\b"; ri "\bbreakthrough\b"] 7;
  mkRule [ri "\brenewable\b"; ri "\bclean\s?energy\b"] 5 ].

Definition PERMANENCE_RULES : list KeywordRule := [
  mkRule [ri "\blong[- ]term\b"; ri "\bpermanent\b"; ri "\b100\s?years?\b";
          ri "\bdurable\b"] 9;
  mkRule [ri "\bpermanence\b"; ri "\birreversib"] 10;
  mkRule [ri "\bsequestration\b"; ri "\bstorage\b"; ri "\bgeologic"] 6;
  mkRule [ri "\bafforestation\b"; ri "\breforestation\b"] 5 ].

Definition MRV_RULES : list KeywordRule := [
  mkRule [ri "\baudit"; ri "\bverification\b"; rs "\bISO\b";
          ri "\bmonitoring\b"; rs "\bMRV\b"] 8;
  mkRule [ri "\bthird[- ]party\b"; ri "\bindependent\b"] 7;
  mkRule [ri "\bsatellite\b"; ri "\bremote\s?sensing\b"; ri "\bIoT\b"] 6;
  mkRule [ri "\breport"; ri "\btransparent"; ri "\baccountab"] 5 ].

Definition LEAKAGE_RULES : list KeywordRule := [
  mkRule [ri "\brisk\b"; ri "\bdeforestation\s?shift\b";
          ri "\bleakage\s?control\b"] 9;
  mkRule [ri "\bleakage\b"; ri "\bdisplacement\b"] 8;
  mkRule [ri "\bbuffer\b"; ri "\bsafeguard"; ri "\bmitigation\b"] 6;
  mkRule [ri "\bboundary\b"; ri "\bbaseline\b"] 4 ].

Definition REGISTRY_QUALITY_RULES : list KeywordRule := [
  mkRule [ri "\bVerra\b"; ri "\bGold\s?Standard\b"; ri "\bregistry\b";
          ri "\btracking\b"] 9;
  mkRule [rs "\bACR\b"; rs "\bCAR\b"; ri "\bPlan\s?Vivo\b"] 8;
  mkRule [ri "\bserial\s?number"; ri "\bretire"; ri "\bcancel"] 5;
  mkRule [ri "\bcertif"; ri "\baccredit"] 6 ].

Definition CORRESPONDING_ADJUSTMENT_RULES : list KeywordRule := [
  mkRule [ri "\bParis\s?Agreement\b"; ri "\bdouble\s?counting\b";
          ri "\bcorresponding\s?adjustment\b"] 10;
  mkRule [ri "\bArticle\s?6\b"; rs "\bNDC\b"; ri "\bITMO\b"] 9;
  mkRule [ri "\bhost\s?country\b";
          ri "\bletter\s?of\s?(authorization|approval)\b"] 7;
  mkRule [ri "\bsovereign"; ri "\bjurisdiction"] 4 ].

Close Scope string_scope.
Open Scope Q_scope.

(** [PARAMETER_WEIGHTS]. *)
Definition W_additionality : Q := 0.25.
Definition W_permanence : Q := 0.20.
Definition W_mrv : Q := 0.20.
Definition W_leakage : Q := 0.15.
Definition W_registryQuality : Q := 0.10.
Definition W_correspondingAdjustment : Q := 0.10.

Definition BASE_SCORE : Q := 45.
Definition MIN_SCORE : Q := 30.
Definition MAX_SCORE : Q := 95.
Definition JITTER_RANGE : Q := 10.
Definition KEYWORD_SCALING : Q := 1.20.

(** [Math.round]: the nearest integer, halves upwards. *)
Definition round (x : Q) : Z := Qfloor (x + (1 # 2)).

(** [clampAndRound(value, min, max)]. *)
Definition clampAndRound (value min max : Q) : Z :=
  round (Qmin max (Qmax min value)).

(** [applyJitter(value, range)], [r] being the value of [Math.random()]. *)
Definition applyJitter (value r range : Q) : Q :=
  let half := range / 2 in
  value + (r * range - half).

Section Runtime.
Variable test : RegExp -> string -> bool.
Variable pow : Q -> Q -> Q.

Definition rulePoints (text : string) (acc : Q) (rule : KeywordRule) : Q :=
  fold_left (fun points pattern =>
               if test pattern text then points + weight rule else points)
            (patterns rule) acc.

Definition evaluateRules (text : string) (rules : list KeywordRule) : Q :=
  let keywordPoints := fold_left (rulePoints text) rules 0 in
  BASE_SCORE + keywordPoints * KEYWORD_SCALING.

Definition calculateIntegrityScoreFromDescription (description : string)
    (random : nat -> Q) : IntegrityScoreResult :=
  let text := description in
  let rawAdditionality := evaluateRules text ADDITIONALITY_RULES in
  let rawPermanence := evaluateRules text PERMANENCE_RULES in
  let rawMrv := evaluateRules text MRV_RULES in
  let rawLeakage := evaluateRules text LEAKAGE_RULES in
  let rawRegistryQuality := evaluateRules text REGISTRY_QUALITY_RULES in
  let rawCA := evaluateRules text CORRESPONDING_ADJUSTMENT_RULES in
  let jitter value k :=
    clampAndRound (applyJitter value (random k) JITTER_RANGE)
                  MIN_SCORE MAX_SCORE in
  let parameters :=
    mkParameters (jitter rawAdditionality 0%nat) (jitter rawPermanence 1%nat)
                 (jitter rawMrv 2%nat) (jitter rawLeakage 3%nat)
                 (jitter rawRegistryQuality 4%nat) (jitter rawCA 5%nat) in
  let weightedSum :=
    inject_Z (additionality parameters) * W_additionality
    + inject_Z (permanence parameters) * W_permanence
    + inject_Z (mrv parameters) * W_mrv
    + inject_Z (leakage parameters) * W_leakage
    + inject_Z (registryQuality parameters) * W_registryQuality
    + inject_Z (correspondingAdjustment parameters)
      * W_correspondingAdjustment in
  let adjustedScore := BASE_SCORE + pow weightedSum 0.9 * 0.6 in
  let score := round (Qmin MAX_SCORE (Qmax MIN_SCORE adjustedScore)) in
  mkResult score parameters.
End Runtime.

Definition inRange (n : Z) : Prop := (30 <= n <= 95)%Z.

Definition parametersInRange (p : IntegrityParameters) : Prop :=
  inRange (additionality p) /\ inRange (permanence p) /\ inRange (mrv p)
  /\ inRange (leakage p) /\ inRange (registryQuality p)
  /\ inRange (correspondingAdjustment p).

End IntegrityScore.

(** ** The registry as a state machine

    One step is one call of an action, run without interference; the step
    keeps the database of a call that fails. *)

Inductive Operation :=
| Issue (projectId : string) (quantity : Z) (clock : nat -> Z) (txId : string)
| Purchase (projectId : string) (quantity : Z) (buyer txId hash : string)
| Retire (projectId : string) (quantity : Z) (buyer reason txId : string).

Definition perform (db : Database) (op : Operation) : Database :=
  match op with
  | Issue projectId quantity clock txId =>
      snd (issueCredits projectId quantity clock txId db)
  | Purchase projectId quantity buyer txId hash =>
      snd (purchaseCredits projectId quantity buyer txId hash db)
  | Retire projectId quantity buyer reason txId =>
      snd (retireCredits projectId quantity buyer reason txId db)
  end.

Definition performAll (db : Database) (ops : list Operation) : Database :=
  fold_left perform ops db.

(** The batch row written by iteration [i] of the loop of [issueCredits]. *)
Definition batchOf (projectId : string) (project : CarbonProject)
    (quantity batchSize : Z) (clock : nat -> Z) (i : nat) : CarbonCredit :=
  mkCredit projectId (serialOf projectId project (clock i) i)
           (vintage project) (quantity / batchSize) issued.

(** The batches and the ledger row that a committed issuance adds. *)
Definition issuedBatches (projectId : string) (project : CarbonProject)
    (quantity : Z) (clock : nat -> Z) : list CarbonCredit :=
  map (batchOf projectId project quantity (Z.min quantity 5) clock)
      (seq 0 (Z.to_nat (Z.min quantity 5))).

Definition issuanceEntry (projectId : string) (project : CarbonProject)
    (quantity : Z) (txId : string) : Transaction :=
  mkTransaction txId issuance projectId None (developerId project) quantity
                None None confirmed None.

(** Decidable form of the conservation equation, to check a given registry. *)
Definition balancedb (db : Database) (p : CarbonProject) : bool :=
  totalCredits p
  =? availableCredits p
     + holdingsOf (project_id p) (buyer_holdings db)
     + retiredOf (project_id p) (transactions db).

Definition conservationb (db : Database) : bool :=
  forallb (balancedb db) (carbon_projects db).

(** The registry of the purchase scenario after its two purchases: buyer
    [u003] holds 5000 credits of [prj001], 5000 remain available. *)
Module Scenario.
Open Scope string_scope.

Definition holding (n : Z) : BuyerHolding := mkHolding "u003" "prj001" n 100.

Definition afterPurchases : Database :=
  Demo.registry 5000 200 [holding 5000] [].

Definition t0 : Z := 1730000000123.

(** Two issuances for the same project one millisecond apart. *)
Definition nearbyIssuances : list Operation :=
  [ Issue "prj001" 3 (Demo.clock t0) "tx1";
    Issue "prj001" 3 (Demo.clock (t0 + 1)) "tx2" ].
End Scenario.

(** Two purchase requests of one credit each, from two buyers, against a
    project with a single credit left. *)
Module Race.
Open Scope string_scope.

Definition lastCredit : Database := Demo.registry 1 100 [] [].

Definition requests : list Concurrent.Request :=
  [ Concurrent.newRequest "prj001" 1 "u003" "tx1" "0xa1";
    Concurrent.newRequest "prj001" 1 "u004" "tx2" "0xb2" ].

(** Both requests read the project before either transaction runs. *)
Definition interleaved : list nat := [0; 1; 0; 1]%nat.

(** The second request runs from start to end between the read and the
    transaction of the first. *)
Definition overtaken : list nat := [0; 1; 1]%nat.

(** Each request runs to its end before the next one starts. *)
Definition serial : list nat := [0; 0; 1; 1]%nat.

Definition available (db : Database) : option Z :=
  option_map availableCredits (Prisma.findProject db "prj001").
End Race.


Definition isOk (r : PurchaseResult) : bool :=
  match r with PurchaseOk _ => true | PurchaseFailed _ => false end.



(** ** Figures read back from the registry *)

Definition isPurchase (t : Transaction) : bool :=
  match tx_type t with purchase => true | _ => false end.

Definition isRetiredCredit (c : CarbonCredit) : bool :=
  match credit_status c with retired => true | _ => false end.

(** The credit totals of [getAdminStats]: the [_sum] of [quantity] over all
    batches, over the purchases of the ledger and over the batches whose
    status is retired ([?? 0] when there is no row). *)
Definition totalCreditsIssued (db : Database) : Z :=
  sumZ (map credit_quantity (carbon_credits db)).

Definition totalCreditsTraded (db : Database) : Z :=
  sumZ (map tx_quantity (filter isPurchase (transactions db))).

Definition totalCreditsRetired (db : Database) : Z :=
  sumZ (map credit_quantity (filter isRetiredCredit (carbon_credits db))).

(** [totalCreditsOwned] of [getBuyerPortfolio]: the holdings of the buyer,
    reduced with [(sum, h) => sum + h.quantity] from 0. *)
Definition totalCreditsOwned (buyer : string) (db : Database) : Z :=
  fold_left (fun sum h => sum + quantity h)
            (filter (fun h => String.eqb (buyerId h) buyer) (buyer_holdings db))
            0.

(** The columns of a project other than [availableCredits]. *)
Definition fixedColumns (p : CarbonProject)
  : string * string * Z * Z * Q :=
  (project_id p, developerId p, vintage p, totalCredits p, pricePerCredit p).

(** The unique key of the holdings table. *)
Definition holdingKeys (db : Database) : list (string * string) :=
  map (fun h => (buyerId h, holding_projectId h)) (buyer_holdings db).

(** ** Bounds of the integrity score *)

Module ScoreBounds.
Import IntegrityScore.
Open Scope Q_scope.

(** The keyword points of a rule set when every pattern matches. *)
Fixpoint maxPoints (rules : list KeywordRule) : Q :=
  match rules with
  | [] => 0
  | r :: rest =>
      weight r * inject_Z (Z.of_nat (List.length (patterns r))) + maxPoints rest
  end.

Definition ruleSets : list (list KeywordRule) :=
  [ ADDITIONALITY_RULES; PERMANENCE_RULES; MRV_RULES; LEAKAGE_RULES;
    REGISTRY_QUALITY_RULES; CORRESPONDING_ADJUSTMENT_RULES ].

Definition nonNegative (rules : list KeywordRule) : Prop :=
  Forall (fun r => 0 <= weight r) rules.

Definition parametersBetween (lo hi : Z) (p : IntegrityParameters) : Prop :=
  (lo <= additionality p <= hi /\ lo <= permanence p <= hi
   /\ lo <= mrv p <= hi /\ lo <= leakage p <= hi
   /\ lo <= registryQuality p <= hi
   /\ lo <= correspondingAdjustment p <= hi)%Z.

(** Stand-ins for the runtime, to evaluate the score with: a matcher that
    finds nothing, a draw in the middle of the range, and a function within
    the bounds of [x ^ 0.9] on [30, 95]. *)
Definition noMatch : RegExp -> string -> bool := fun _ _ => false.
Definition midDraw : nat -> Q := fun _ => 1 # 2.
Definition chord : Q -> Q -> Q := fun x _ => 21 + (x - 30) * (40 # 65).
End ScoreBounds.

(** ** Sectors of a project

    The storage keeps a sector under its enum name ([RenewableEnergy]);
    [registerProject] translates the displayed name into it with
    [sectorMap], [mapProject] translates it back with
    [replace(/([A-Z])/g, " $1").trim()]. *)

Module Sector.
Open Scope string_scope.

Definition isCapital (c : ascii) : bool :=
  let n := nat_of_ascii c in ((65 <=? n)%nat && (n <=? 90)%nat)%bool.

(** White space and line terminators within ASCII, which [trim] removes. *)
Definition isBlank (c : ascii) : bool :=
  let n := nat_of_ascii c in
  (((9 <=? n)%nat && (n <=? 13)%nat) || (n =? 32)%nat)%bool.

(** [s.replace(/([A-Z])/g, " $1")]. *)
Fixpoint spaceCapitals (s : string) : string :=
  match s with
  | EmptyString => EmptyString
  | String c r =>
      if isCapital c then String " " (String c (spaceCapitals r))
      else String c (spaceCapitals r)
  end.

Fixpoint trimStart (s : string) : string :=
  match s with
  | EmptyString => EmptyString
  | String c r => if isBlank c then trimStart r else s
  end.

Fixpoint trimEnd (s : string) : string :=
  match s with
  | EmptyString => EmptyString
  | String c r =>
      match trimEnd r with
      | EmptyString => if isBlank c then EmptyString else String c EmptyString
      | r' => String c r'
      end
  end.

(** [s.trim()]. *)
Definition trim (s : string) : string := trimEnd (trimStart s).

(** The sector of [mapProject]. *)
Definition displaySector (column : string) : string :=
  trim (spaceCapitals column).

Definition sectorMap : list (string * string) :=
  [ ("Renewable Energy", "RenewableEnergy");
    ("Afforestation", "Afforestation");
    ("Methane Capture", "MethaneCapture");
    ("Energy Efficiency", "EnergyEfficiency");
    ("Blue Carbon", "BlueCarbon");
    ("Soil Carbon", "SoilCarbon");
    ("Waste Management", "WasteManagement") ].

(** The property names that the object [sectorMap] inherits from
    [Object.prototype]: looking one up yields a value that is neither
    nullish nor a sector. *)
Definition inheritedNames : list string :=
  [ "constructor"; "__defineGetter__"; "__defineSetter__"; "hasOwnProperty";
    "__lookupGetter__"; "__lookupSetter__"; "isPrototypeOf";
    "propertyIsEnumerable"; "toString"; "valueOf"; "__proto__";
    "toLocaleString" ].

Fixpoint own (key : string) (entries : list (string * string))
  : option string :=
  match entries with
  | [] => None
  | (k, v) :: rest => if String.eqb k key then Some v else own key rest
  end.

(** [sectorMap[data.sector!] ?? "RenewableEnergy"]: the enum name to store,
    [None] when the value is not one the storage accepts.  A missing sector
    is looked up under the key [undefined]. *)
Definition sectorColumn (sector : option string) : option string :=
  let key := match sector with Some s => s | None => "undefined" end in
  match own key sectorMap with
  | Some column => Some column
  | None =>
      if Prisma.memb key inheritedNames then None else Some "RenewableEnergy"
  end.

End Sector.

(** ** Registration of a project: [registerProject]

    Of the created row, the columns of [CarbonProject] are kept. *)

Record ProjectData := mkProjectData {
  data_name : option string;
  data_developerId : string;
  data_sector : option string;
  data_vintage : option Z;
  data_totalCredits : option Z;
  data_availableCredits : option Z;
  data_pricePerCredit : option Q
}.

Inductive RegisterResult :=
| RegisterOk (projectId : string)   (* { success: true, projectId } *)
| RegisterFailed.                   (* { success: false, error } *)

(** [x ?? d]. *)
Definition orElse {A : Type} (x : option A) (d : A) : A :=
  match x with Some a => a | None => d end.

(** [carbonProject.create]: primary key, foreign key on the developer,
    range of [vintage], [totalCredits] and [availableCredits]. *)
Definition createProject (p : CarbonProject) (db : Database)
  : option Database :=
  if (Prisma.userExists db (developerId p)
      && negb (Prisma.projectExists db (project_id p))
      && Prisma.int4 (vintage p) && Prisma.int4 (totalCredits p)
      && Prisma.int4 (availableCredits p))%bool
  then Some (mkDb (users db) (carbon_projects db ++ [p]) (carbon_credits db)
                  (transactions db) (buyer_holdings db)
                  (compliance_alerts db))
  else None.

(** The row that [registerProject] asks the storage to create; [newId] is
    the id the storage generates, [year] is [new Date().getFullYear()]. *)
Definition registeredRow (data : ProjectData) (newId : string) (year : Z)
  : CarbonProject :=
  mkProject newId (data_developerId data)
            (orElse (data_vintage data) year)
            (orElse (data_totalCredits data) 0)
            (orElse (data_availableCredits data)
                    (orElse (data_totalCredits data) 0))
            (orElse (data_pricePerCredit data) 0%Q).

Definition registerProject (data : ProjectData) (newId : string) (year : Z)
    (db : Database) : RegisterResult * Database :=
  match data_name data, Sector.sectorColumn (data_sector data) with
  | Some _, Some _ =>
      match createProject (registeredRow data newId year) db with
      | Some db' => (RegisterOk newId, db')
      | None => (RegisterFailed, db)
      end
  | _, _ => (RegisterFailed, db)
  end.

(** No holding and no ledger entry refers to the project [id]. *)
Definition unreferenced (id : string) (db : Database) : Prop :=
  Forall (fun h => holding_projectId h <> id) (buyer_holdings db)
  /\ Forall (fun t => tx_projectId t <> id) (transactions db).

(** ** Open compliance alerts

    The rows that [getComplianceAlerts] selects ([where: { resolved: false }])
    before it orders them and takes twenty. *)
Definition openAlerts (db : Database) : list ComplianceAlert :=
  filter (fun a => negb (resolved a)) (compliance_alerts db).

(** ** Accounts: [loginUser] and the registration route

    The table of users in full; [users] of the registry holds its ids.
    Timestamps are kept as the ISO text that [toISOString] gives.  The
    password hashing of [bcryptjs] is a variable: [hash salt password] for
    [bcrypt.hash] with the salt it draws, [compare password hash] for
    [bcrypt.compare].  The members of a registration body are strings or
    missing. *)

Module Auth.
Open Scope string_scope.

Record UserRow := mkUserRow {
  user_id : string;
  user_name : string;
  user_email : string;
  user_passwordHash : string;
  user_role : string;
  user_organization : option string;
  user_createdAt : string
}.

(** The user as the application sees it: no password hash. *)
Record User := mkUser {
  id : string;
  name : string;
  email : string;
  role : string;
  organization : option string;
  createdAt : string
}.

Definition mapUser (u : UserRow) : User :=
  mkUser (user_id u) (user_name u) (user_email u) (user_role u)
         (user_organization u) (user_createdAt u).

(** [user.findUnique({ where: { email } })]. *)
Definition findByEmail (table : list UserRow) (email : string)
  : option UserRow :=
  find (fun u => String.eqb (user_email u) email) table.

Inductive LoginResult :=
| LoginOk (user : User)          (* { success: true, user } *)
| LoginFailed (error : string).  (* { success: false, error } *)

Record RegisterBody := mkBody {
  body_name : option string;
  body_email : option string;
  body_password : option string;
  body_role : option string;
  body_organization : option string
}.

Inductive RegisterResponse :=
| Created (user : User)          (* 201 { success: true, user } *)
| BadRequest (error : string)    (* 400 *)
| Conflict (error : string).     (* 409 *)

(** A field of the body is truthy when it is present and not empty. *)
Definition truthy (field : option string) : bool :=
  match field with
  | Some s => negb (String.eqb s "")
  | None => false
  end.

Definition roles : list string := ["admin"; "developer"; "buyer"].

Definition emails (table : list UserRow) : list string :=
  map user_email table.

Section Bcrypt.
Variable compare : string -> string -> bool.
Variable hash : string -> string -> string.

Definition loginUser (table : list UserRow) (email password : string)
  : LoginResult :=
  match findByEmail table email with
  | None => LoginFailed "Invalid email or password."
  | Some dbUser =>
      if compare password (user_passwordHash dbUser)
      then LoginOk (mapUser dbUser)
      else LoginFailed "Invalid email or password."
  end.

(** [POST /api/auth/register]; [newId] and [now] are the id and the creation
    time that the storage gives the new row. *)
Definition register (body : RegisterBody) (newId salt now : string)
    (table : list UserRow) : RegisterResponse * list UserRow :=
  match body_name body, body_email body, body_password body, body_role body
  with
  | Some name, Some email, Some password, Some role =>
      if negb (truthy (body_name body) && truthy (body_email body)
               && truthy (body_password body) && truthy (body_role body))
      then (BadRequest "name, email, password, and role are required.", table)
      else if negb (Prisma.memb role roles)
      then (BadRequest "Invalid role.", table)
      else match findByEmail table email with
           | Some _ =>
               (Conflict "A user with this email already exists.", table)
           | None =>
               let row := mkUserRow newId name email (hash salt password) role
                                    (body_organization body) now in
               (Created (mapUser row), (table ++ [row])%list)
           end
  | _, _, _, _ =>
      (BadRequest "name, email, password, and role are required.", table)
  end.
End Bcrypt.

(** Stand-ins for the hashing, to run the route with: no hashing at all. *)
Definition plainHash : string -> string -> string := fun _ password => password.
Definition plainCompare : string -> string -> bool := String.eqb.

(** A request to be registered as an administrator. *)
Definition applicant : RegisterBody :=
  mkBody (Some "Asha Rao") (Some "asha@example.org") (Some "S3cret!")
         (Some "admin") None.

End Auth.

(** ** The integrity-score route: [POST] with a JSON body *)

Module IntegrityApi.
Import IntegrityScore.




Section Runtime.
Variable test : RegExp -> string -> bool.
Variable pow : Q -> Q -> Q.

End Runtime.

End IntegrityApi.



(** * Properties *)

(** ** The integrity score stays in its range *)

Module IntegrityScoreFacts.
Import IntegrityScore.
Open Scope Q_scope.

Lemma clamp_bounds (lo hi v : Q) :
  lo <= hi -> lo <= Qmin hi (Qmax lo v) <= hi.
Proof.
  intros Hlohi. split.
  - apply Q.min_glb; [exact Hlohi | apply Q.le_max_l].
  - apply Q.le_min_l.
Qed.

Lemma round_between (a b : Z) (x : Q) :
  inject_Z a <= x <= inject_Z b -> (a <= round x <= b)%Z.
Proof.
  intros [Ha Hb]. unfold round. split.
  - rewrite <- (Qfloor_Z a). apply Qfloor_resp_le.
    apply Qle_trans with x; [exact Ha |].
    rewrite <- (Qplus_0_r x) at 1. apply Qplus_le_r. discriminate.
  - assert (Hstep : Qfloor (inject_Z b + (1 # 2)) = b).
    { unfold Qfloor, inject_Z, Qplus; simpl.
      symmetry. apply (Z.div_unique _ _ _ 1); lia. }
    apply Z.le_trans with (Qfloor (inject_Z b + (1 # 2))); [| lia].
    apply Qfloor_resp_le. apply Qplus_le_l. exact Hb.
Qed.

Lemma clampAndRound_inRange (v : Q) :
  inRange (clampAndRound v MIN_SCORE MAX_SCORE).
Proof.
  unfold inRange, clampAndRound.
  apply (round_between 30 95).
  apply (clamp_bounds MIN_SCORE MAX_SCORE). discriminate.
Qed.

(** C10.  Whatever the description, whatever the regular-expression
    engine answers and whatever values the six random draws take, the
    overall score returned by [calculateIntegrityScoreFromDescription] is
    an integer between 30 and 95, and so is each of the six parameters. *)
Theorem integrity_score_in_range
    (test : RegExp -> string -> bool) (pow : Q -> Q -> Q)
    (description : string) (random : nat -> Q) :
  let result :=
    calculateIntegrityScoreFromDescription test pow description random in
  inRange (score result) /\ parametersInRange (parameters result).
Proof.
  cbv zeta. unfold calculateIntegrityScoreFromDescription; cbn [score parameters].
  split.
  - apply (round_between 30 95).
    apply (clamp_bounds MIN_SCORE MAX_SCORE). discriminate.
  - unfold parametersInRange; cbn [additionality permanence mrv leakage
      registryQuality correspondingAdjustment].
    repeat split; apply clampAndRound_inRange.
Qed.

End IntegrityScoreFacts.

(** ** What the storage operations change *)

Section UpdateFirst.
Context {A : Type} (key : A -> string) (f : A -> A).
Hypothesis f_key : forall x, key (f x) = key x.

Lemma find_updateFirst (k k' : string) (l l' : list A) :
  Prisma.updateFirst (fun x => String.eqb (key x) k) f l = Some l' ->
  find (fun x => String.eqb (key x) k') l'
  = if String.eqb k' k
    then option_map f (find (fun x => String.eqb (key x) k) l)
    else find (fun x => String.eqb (key x) k') l.
Proof.
  revert l'. induction l as [|x r IH]; intros l' H; simpl in H.
  - discriminate.
  - destruct (String.eqb (key x) k) eqn:Hx.
    + inversion H; subst l'; clear H. simpl. rewrite f_key, Hx.
      apply String.eqb_eq in Hx. subst k.
      rewrite (String.eqb_sym k' (key x)).
      destruct (String.eqb (key x) k'); reflexivity.
    + destruct (Prisma.updateFirst _ f r) as [r'|] eqn:Hr; [|discriminate].
      inversion H; subst l'; clear H. simpl. rewrite Hx.
      specialize (IH r' eq_refl).
      destruct (String.eqb (key x) k') eqn:Hx'.
      * apply String.eqb_eq in Hx'. subst k'. rewrite Hx. reflexivity.
      * exact IH.
Qed.

Lemma updateFirst_none (k : string) (l : list A) :
  Prisma.updateFirst (fun x => String.eqb (key x) k) f l = None
  <-> find (fun x => String.eqb (key x) k) l = None.
Proof.
  induction l as [|x r IH]; simpl.
  - tauto.
  - destruct (String.eqb (key x) k).
    + split; discriminate.
    + destruct (Prisma.updateFirst _ f r) eqn:Hr.
      * split; [discriminate|]. intros H. apply IH in H. discriminate.
      * split; [intros _; apply IH; reflexivity | reflexivity].
Qed.
End UpdateFirst.

Lemma updateFirst_none_all {A : Type} (sel : A -> bool) (f : A -> A)
    (l : list A) :
  Prisma.updateFirst sel f l = None -> forall x, In x l -> sel x = false.
Proof.
  induction l as [|y r IH]; simpl; intros H x Hx; [contradiction|].
  destruct (sel y) eqn:Hy; [discriminate|].
  destruct (Prisma.updateFirst sel f r); [discriminate|].
  destruct Hx as [Hx | Hx]; [subst; exact Hy | auto].
Qed.


Lemma sumZ_app (l1 l2 : list Z) : sumZ (l1 ++ l2) = sumZ l1 + sumZ l2.
Proof.
  induction l1 as [|x r IH]; simpl; [reflexivity | rewrite IH; lia].
Qed.

Lemma holdingsOf_app (id : string) (hs1 hs2 : list BuyerHolding) :
  holdingsOf id (hs1 ++ hs2) = holdingsOf id hs1 + holdingsOf id hs2.
Proof.
  unfold holdingsOf. rewrite filter_app, map_app. apply sumZ_app.
Qed.

Lemma retiredOf_app (id : string) (ts1 ts2 : list Transaction) :
  retiredOf id (ts1 ++ ts2) = retiredOf id ts1 + retiredOf id ts2.
Proof.
  unfold retiredOf. rewrite filter_app, map_app. apply sumZ_app.
Qed.

Lemma batchesOf_app (id : string) (cs1 cs2 : list CarbonCredit) :
  batchesOf id (cs1 ++ cs2) = batchesOf id cs1 + batchesOf id cs2.
Proof.
  unfold batchesOf. rewrite filter_app, map_app. apply sumZ_app.
Qed.

(** Changing the quantity of the row of [(buyer, project)] moves the holdings
    of [project] by the same amount and leaves the other projects alone. *)
Lemma holdingsOf_updateFirst (upd : Z -> Z) (buyer project id : string)
    (hs hs' : list BuyerHolding) :
  Prisma.updateFirst (Prisma.holdingKey buyer project)
    (fun h => Prisma.withQuantity h (upd (quantity h))) hs = Some hs' ->
  exists h,
    find (Prisma.holdingKey buyer project) hs = Some h
    /\ find (Prisma.holdingKey buyer project) hs'
       = Some (Prisma.withQuantity h (upd (quantity h)))
    /\ holdingsOf id hs'
       = holdingsOf id hs
         + (if String.eqb project id then upd (quantity h) - quantity h else 0).
Proof.
  revert hs'. induction hs as [|x r IH]; intros hs' H; simpl in H.
  - discriminate.
  - destruct (Prisma.holdingKey buyer project x) eqn:Hx.
    + inversion H; subst hs'; clear H. exists x. simpl. rewrite Hx.
      unfold Prisma.holdingKey in *; simpl.
      apply andb_true_iff in Hx. destruct Hx as [Hb Hp].
      rewrite Hb, Hp. simpl. repeat split.
      apply String.eqb_eq in Hp. unfold holdingsOf; simpl. rewrite Hp.
      destruct (String.eqb project id); simpl; lia.
    + destruct (Prisma.updateFirst _ _ r) as [r'|] eqn:Hr; [|discriminate].
      inversion H; subst hs'; clear H.
      destruct (IH r' eq_refl) as (h & Hf & Hf' & Hsum).
      exists h. simpl. rewrite Hx. repeat split; try assumption.
      unfold holdingsOf in *; simpl.
      destruct (String.eqb (holding_projectId x) id); simpl; rewrite Hsum; lia.
Qed.

Lemma find_app_none {A : Type} (sel : A -> bool) (l : list A) (x : A) :
  find sel l = None -> find sel (l ++ [x]) = if sel x then Some x else None.
Proof.
  induction l as [|y r IH]; simpl; intros H; [reflexivity |].
  destruct (sel y); [discriminate | auto].
Qed.

Lemma createTransaction_effect (t : Transaction) (db db' : Database) :
  Prisma.createTransaction t db = Some db' ->
  db' = mkDb (users db) (carbon_projects db) (carbon_credits db)
             (transactions db ++ [t]) (buyer_holdings db)
             (compliance_alerts db)
  /\ Prisma.projectExists db (tx_projectId t) = true
  /\ Prisma.userExists db (toUserId t) = true.
Proof.
  unfold Prisma.createTransaction. intros H.
  destruct (Prisma.projectExists db (tx_projectId t)); simpl in H;
    [|discriminate].
  destruct (Prisma.userExists db (toUserId t)); simpl in H; [|discriminate].
  destruct (Prisma.optUserExists db (fromUserId t)); simpl in H;
    [|discriminate].
  destruct (Prisma.int4 (tx_quantity t)); [|discriminate].
  inversion H. auto.
Qed.


Lemma createCredit_effect (c : CarbonCredit) (db db' : Database) :
  Prisma.createCredit c db = Some db' ->
  db' = mkDb (users db) (carbon_projects db) (carbon_credits db ++ [c])
             (transactions db) (buyer_holdings db) (compliance_alerts db)
  /\ Prisma.serialTaken db (serialNumber c) = false.
Proof.
  unfold Prisma.createCredit. intros H.
  destruct (Prisma.projectExists db (credit_projectId c)); simpl in H;
    [|discriminate].
  destruct (Prisma.serialTaken db (serialNumber c)); simpl in H;
    [discriminate|].
  destruct (Prisma.int4 (credit_vintage c)); simpl in H; [|discriminate].
  destruct (Prisma.int4 (credit_quantity c)); [|discriminate].
  inversion H. auto.
Qed.

Lemma createAlert_effect (a : ComplianceAlert) (db db' : Database) :
  Prisma.createAlert a db = Some db' ->
  db' = mkDb (users db) (carbon_projects db) (carbon_credits db)
             (transactions db) (buyer_holdings db)
             (compliance_alerts db ++ [a]).
Proof.
  unfold Prisma.createAlert. intros H.
  destruct (match alert_projectId a with
            | Some p => Prisma.projectExists db p
            | None => true
            end); [|discriminate].
  inversion H. reflexivity.
Qed.

Lemma decrementAvailable_effect (project : string) (n : Z)
    (db db' : Database) :
  Prisma.decrementAvailable project n db = Some db' ->
  users db' = users db
  /\ carbon_credits db' = carbon_credits db
  /\ transactions db' = transactions db
  /\ buyer_holdings db' = buyer_holdings db
  /\ compliance_alerts db' = compliance_alerts db
  /\ forall id,
       Prisma.findProject db' id
       = if String.eqb id project
         then option_map
                (fun p => Prisma.withAvailable p (availableCredits p - n))
                (Prisma.findProject db project)
         else Prisma.findProject db id.
Proof.
  unfold Prisma.decrementAvailable. intros H.
  destruct (Prisma.fits _ n _); [|discriminate].
  destruct (Prisma.updateFirst _ _ (carbon_projects db)) as [ps|] eqn:Hps;
    [|discriminate].
  inversion H; subst db'; clear H. simpl. repeat split.
  intros id. unfold Prisma.findProject; simpl.
  apply (find_updateFirst project_id
           (fun p => Prisma.withAvailable p (availableCredits p - n))
           (fun p => eq_refl) project id _ _ Hps).
Qed.

Lemma decrementHolding_effect (buyer project : string) (n : Z)
    (db db' : Database) :
  Prisma.decrementHolding buyer project n db = Some db' ->
  db' = Prisma.setHoldings db (buyer_holdings db')
  /\ exists h,
       Prisma.findHolding db buyer project = Some h
       /\ Prisma.findHolding db' buyer project
          = Some (Prisma.withQuantity h (quantity h - n))
       /\ forall id,
            holdingsOf id (buyer_holdings db')
            = holdingsOf id (buyer_holdings db)
              + (if String.eqb project id then - n else 0).
Proof.
  unfold Prisma.decrementHolding. intros H.
  destruct (Prisma.fits _ n _); [|discriminate].
  destruct (Prisma.updateFirst _ _ (buyer_holdings db)) as [hs|] eqn:Hhs;
    [|discriminate].
  inversion H; subst db'; clear H. split; [reflexivity|].
  destruct (holdingsOf_updateFirst (fun v => v - n) buyer project project _ _ Hhs)
    as (h & Hf & Hf' & _).
  exists h. unfold Prisma.findHolding; simpl. repeat split; try assumption.
  intros id.
  destruct (holdingsOf_updateFirst (fun v => v - n) buyer project id _ _ Hhs)
    as (h2 & Hf2 & _ & Hsum).
  rewrite Hsum. destruct (String.eqb project id); lia.
Qed.

Lemma upsertHolding_effect (buyer project : string) (n : Z) (price : Q)
    (db db' : Database) :
  Prisma.upsertHolding buyer project n price db = Some db' ->
  db' = Prisma.setHoldings db (buyer_holdings db')
  /\ (forall id,
        holdingsOf id (buyer_holdings db')
        = holdingsOf id (buyer_holdings db)
          + (if String.eqb project id then n else 0))
  /\ Prisma.findHolding db' buyer project
     = Some (match Prisma.findHolding db buyer project with
             | Some h => Prisma.withQuantity h (quantity h + n)
             | None => mkHolding buyer project n price
             end).
Proof.
  unfold Prisma.upsertHolding. intros H.
  destruct (Prisma.fits _ n _); [|discriminate].
  destruct (Prisma.updateFirst _ _ (buyer_holdings db)) as [hs|] eqn:Hhs.
  - inversion H; subst db'; clear H. split; [reflexivity|]. simpl. split.
    + intros id.
      destruct (holdingsOf_updateFirst (fun v => v + n) buyer project id _ _ Hhs)
        as (h & _ & _ & Hsum).
      rewrite Hsum. destruct (String.eqb project id); lia.
    + destruct (holdingsOf_updateFirst (fun v => v + n) buyer project project
                  _ _ Hhs) as (h & Hf & Hf' & _).
      unfold Prisma.findHolding; simpl. rewrite Hf. exact Hf'.
  - destruct (Prisma.userExists db buyer && Prisma.projectExists db project)%bool;
      [|discriminate].
    inversion H; subst db'; clear H. split; [reflexivity|]. simpl. split.
    + intros id. rewrite holdingsOf_app.
      assert (Hnew : holdingsOf id [mkHolding buyer project n price]
                     = if String.eqb project id then n else 0).
      { unfold holdingsOf; simpl.
        destruct (String.eqb project id); simpl; lia. }
      rewrite Hnew. reflexivity.
    + unfold Prisma.findHolding; simpl.
      assert (Hnone : find (Prisma.holdingKey buyer project) (buyer_holdings db)
                      = None).
      { clear - Hhs. induction (buyer_holdings db) as [|x r IH]; simpl in *;
          [reflexivity|].
        destruct (Prisma.holdingKey buyer project x); [discriminate|].
        destruct (Prisma.updateFirst _ _ r); [discriminate | auto]. }
      rewrite Hnone, (find_app_none _ _ _ Hnone).
      unfold Prisma.holdingKey; simpl. rewrite !String.eqb_refl. reflexivity.
Qed.

(** ** When the storage accepts a statement *)










(** ** What the transactions change *)

Lemma purchaseTransaction_effect (project : CarbonProject)
    (projectId : string) (n : Z) (buyer txId hash : string)
    (db db' : Database) :
  purchaseTransaction project projectId n buyer txId hash db = Some db' ->
  users db' = users db
  /\ carbon_credits db' = carbon_credits db
  /\ transactions db'
     = transactions db
       ++ [mkTransaction txId purchase projectId (Some (developerId project))
             buyer n (Some (pricePerCredit project))
             (Some (inject_Z n * pricePerCredit project)%Q) confirmed
             (Some hash)]
  /\ (forall id,
        Prisma.findProject db' id
        = if String.eqb id projectId
          then option_map
                 (fun p => Prisma.withAvailable p (availableCredits p - n))
                 (Prisma.findProject db projectId)
          else Prisma.findProject db id)
  /\ (forall id,
        holdingsOf id (buyer_holdings db')
        = holdingsOf id (buyer_holdings db)
          + (if String.eqb projectId id then n else 0))
  /\ Prisma.findHolding db' buyer projectId
     = Some (match Prisma.findHolding db buyer projectId with
             | Some h => Prisma.withQuantity h (quantity h + n)
             | None => mkHolding buyer projectId n (pricePerCredit project)
             end).
Proof.
  unfold purchaseTransaction, Prisma.bind. intros H.
  destruct (Prisma.createTransaction _ db) as [db1|] eqn:H1; [|discriminate].
  destruct (Prisma.decrementAvailable projectId n db1) as [db2|] eqn:H2;
    [|discriminate].
  apply createTransaction_effect in H1. destruct H1 as (E1 & _ & _).
  apply decrementAvailable_effect in H2.
  destruct H2 as (U2 & C2 & T2 & B2 & _ & P2).
  apply upsertHolding_effect in H. destruct H as (E3 & S3 & F3).
  rewrite E3; simpl. rewrite U2, C2, T2, E1; simpl.
  repeat split.
  - intros id. unfold Prisma.findProject at 1; simpl.
    fold (Prisma.findProject db2 id). rewrite P2. subst db1. reflexivity.
  - intros id. rewrite S3, B2. subst db1. reflexivity.
  - unfold Prisma.findHolding at 1; simpl.
    fold (Prisma.findHolding db' buyer projectId). rewrite F3.
    unfold Prisma.findHolding. rewrite B2. subst db1. reflexivity.
Qed.

Lemma retireTransaction_effect (projectId : string) (n : Z)
    (buyer reason txId : string) (db db' : Database) :
  retireTransaction projectId n buyer reason txId db = Some db' ->
  users db' = users db
  /\ carbon_projects db' = carbon_projects db
  /\ carbon_credits db' = carbon_credits db
  /\ transactions db'
     = transactions db
       ++ [mkTransaction txId retirement projectId None buyer n None None
             confirmed None]
  /\ (forall id,
        holdingsOf id (buyer_holdings db')
        = holdingsOf id (buyer_holdings db)
          + (if String.eqb projectId id then - n else 0))
  /\ exists h,
       Prisma.findHolding db buyer projectId = Some h
       /\ Prisma.findHolding db' buyer projectId
          = Some (Prisma.withQuantity h (quantity h - n)).
Proof.
  unfold retireTransaction, Prisma.bind. intros H.
  destruct (Prisma.createTransaction _ db) as [db1|] eqn:H1; [|discriminate].
  destruct (Prisma.decrementHolding buyer projectId n db1) as [db2|] eqn:H2;
    [|discriminate].
  apply createTransaction_effect in H1. destruct H1 as (E1 & _ & _).
  apply decrementHolding_effect in H2.
  destruct H2 as (E2 & h & F2 & F2' & S2).
  apply createAlert_effect in H. subst db'. simpl.
  rewrite E2; simpl. rewrite E1; simpl. repeat split.
  - intros id. rewrite S2. subst db1. reflexivity.
  - exists h. split.
    + subst db1. exact F2.
    + exact F2'.
Qed.

Lemma serialTaken_false (db : Database) (s : string) :
  Prisma.serialTaken db s = false -> ~ In s (serials db).
Proof.
  unfold Prisma.serialTaken, serials. intros H Hin.
  apply in_map_iff in Hin. destruct Hin as (c & Hc & Hin).
  assert (Ht : existsb (fun c => String.eqb (serialNumber c) s)
                       (carbon_credits db) = true).
  { apply existsb_exists. exists c. split; [exact Hin|].
    rewrite Hc. apply String.eqb_refl. }
  congruence.
Qed.

Lemma NoDup_snoc {A : Type} (l : list A) (x : A) :
  NoDup l -> ~ In x l -> NoDup (l ++ [x]).
Proof.
  induction l as [|y r IH]; simpl; intros Hl Hx.
  - constructor; [tauto | constructor].
  - inversion Hl; subst. constructor.
    + rewrite in_app_iff; simpl. intros [H | [H | []]]; [tauto|].
      apply Hx. left. symmetry. exact H.
    + apply IH; [assumption | tauto].
Qed.

Lemma issueLoop_effect (projectId : string) (project : CarbonProject)
    (n batchSize : Z) (clock : nat -> Z) (indices : list nat) :
  forall (acc out : list string) (db db' : Database),
    issueLoop projectId project n batchSize clock indices acc db
    = Some (out, db') ->
    out = acc ++ map (fun i => serialOf projectId project (clock i) i) indices
    /\ db' = mkDb (users db) (carbon_projects db)
               (carbon_credits db
                ++ map (batchOf projectId project n batchSize clock) indices)
               (transactions db) (buyer_holdings db) (compliance_alerts db)
    /\ (NoDup (serials db) -> NoDup (serials db')).
Proof.
  induction indices as [|i rest IH]; intros acc out db db' H; simpl in H.
  - inversion H; subst. rewrite !app_nil_r. destruct db'; simpl.
    repeat split. auto.
  - unfold Prisma.bind in H.
    destruct (Prisma.createCredit _ db) as [db1|] eqn:H1; [|discriminate].
    apply createCredit_effect in H1. destruct H1 as (E1 & Hfree).
    apply IH in H. destruct H as (Hout & Hdb & Hnd).
    simpl in Hfree. repeat split.
    + rewrite Hout, <- app_assoc. reflexivity.
    + rewrite Hdb, E1; simpl. rewrite <- app_assoc. reflexivity.
    + intros Hdb0. apply Hnd. rewrite E1. unfold serials; simpl.
      rewrite map_app; simpl. apply NoDup_snoc; [exact Hdb0|].
      apply serialTaken_false. exact Hfree.
Qed.

Lemma issueTransaction_effect (projectId : string) (project : CarbonProject)
    (n : Z) (clock : nat -> Z) (txId : string) (out : list string)
    (db db' : Database) :
  issueTransaction projectId project n clock txId db = Some (out, db') ->
  out = map serialNumber (issuedBatches projectId project n clock)
  /\ db' = mkDb (users db) (carbon_projects db)
             (carbon_credits db ++ issuedBatches projectId project n clock)
             (transactions db ++ [issuanceEntry projectId project n txId])
             (buyer_holdings db) (compliance_alerts db)
  /\ (NoDup (serials db) -> NoDup (serials db')).
Proof.
  unfold issueTransaction, Prisma.bind. intros H.
  destruct (issueLoop _ _ _ _ _ _ _ db) as [[out1 db1]|] eqn:H1;
    [|discriminate].
  simpl in H.
  destruct (Prisma.createTransaction _ db1) as [db2|] eqn:H2; [|discriminate].
  inversion H; subst out1 db2; clear H.
  apply issueLoop_effect in H1. destruct H1 as (Hout & Hdb & Hnd).
  apply createTransaction_effect in H2. destruct H2 as (E2 & _ & _).
  repeat split.
  - rewrite Hout. unfold issuedBatches. rewrite map_map. reflexivity.
  - rewrite E2, Hdb. reflexivity.
  - intros H0. specialize (Hnd H0). rewrite E2. exact Hnd.
Qed.

(** ** When a transaction commits *)





Lemma purchase_tables (project : CarbonProject) (projectId : string) (n : Z)
    (buyer txId hash : string) (db db' : Database) :
  purchaseTransaction project projectId n buyer txId hash db = Some db' ->
  Prisma.updateFirst (fun p => String.eqb (project_id p) projectId)
    (fun p => Prisma.withAvailable p (availableCredits p - n))
    (carbon_projects db) = Some (carbon_projects db')
  /\ (Prisma.updateFirst (Prisma.holdingKey buyer projectId)
        (fun h => Prisma.withQuantity h (quantity h + n))
        (buyer_holdings db) = Some (buyer_holdings db')
      \/ Prisma.updateFirst (Prisma.holdingKey buyer projectId)
           (fun h => Prisma.withQuantity h (quantity h + n))
           (buyer_holdings db) = None
         /\ buyer_holdings db'
            = buyer_holdings db
              ++ [mkHolding buyer projectId n (pricePerCredit project)])
  /\ compliance_alerts db' = compliance_alerts db
  /\ Prisma.userExists db buyer = true
  /\ Prisma.userExists db (developerId project) = true.
Proof.
  unfold purchaseTransaction, Prisma.bind. intros H.
  destruct (Prisma.createTransaction _ db) as [db1|] eqn:H1; [|discriminate].
  destruct (Prisma.decrementAvailable projectId n db1) as [db2|] eqn:H2;
    [|discriminate].
  unfold Prisma.createTransaction in H1.
  cbn [tx_projectId toUserId fromUserId Prisma.optUserExists] in H1.
  destruct (Prisma.projectExists db projectId); [|discriminate].
  destruct (Prisma.userExists db buyer); [|discriminate].
  destruct (Prisma.userExists db (developerId project)); [|discriminate].
  cbn [andb tx_quantity] in H1.
  destruct (Prisma.int4 n); [|discriminate].
  inversion H1; subst db1; clear H1.
  unfold Prisma.decrementAvailable in H2.
  destruct (Prisma.fits _ n _) in H2; [|discriminate].
  cbn [carbon_projects] in H2.
  destruct (Prisma.updateFirst _ _ (carbon_projects db)) as [ps|] eqn:Hps;
    [|discriminate].
  inversion H2; subst db2; clear H2.
  unfold Prisma.upsertHolding in H.
  destruct (Prisma.fits _ n _) in H; [|discriminate].
  cbn [buyer_holdings] in H.
  destruct (Prisma.updateFirst _ _ (buyer_holdings db)) as [hs|] eqn:Hhs.
  - inversion H; subst db'. simpl. repeat split. left. reflexivity.
  - destruct (_ && _)%bool in H; [|discriminate].
    inversion H; subst db'. simpl. repeat split. right. split; reflexivity.
Qed.

Lemma retire_tables (projectId : string) (n : Z) (buyer reason txId : string)
    (db db' : Database) :
  retireTransaction projectId n buyer reason txId db = Some db' ->
  Prisma.updateFirst (Prisma.holdingKey buyer projectId)
    (fun h => Prisma.withQuantity h (quantity h - n))
    (buyer_holdings db) = Some (buyer_holdings db')
  /\ compliance_alerts db'
     = compliance_alerts db
       ++ [mkAlert info buyer (retireMessage n projectId reason)
                   (Some projectId) true]
  /\ Prisma.userExists db buyer = true
  /\ Prisma.projectExists db projectId = true.
Proof.
  unfold retireTransaction, Prisma.bind. intros H.
  destruct (Prisma.createTransaction _ db) as [db1|] eqn:H1; [|discriminate].
  destruct (Prisma.decrementHolding buyer projectId n db1) as [db2|] eqn:H2;
    [|discriminate].
  apply createTransaction_effect in H1. destruct H1 as (E1 & Hp & Hu).
  cbn [tx_projectId toUserId] in Hp, Hu.
  unfold Prisma.decrementHolding in H2.
  destruct (Prisma.fits _ n _) in H2; [|discriminate].
  destruct (Prisma.updateFirst _ _ (buyer_holdings db1)) as [hs|] eqn:Hhs;
    [|discriminate].
  inversion H2; subst db2; clear H2.
  apply createAlert_effect in H. subst db'. subst db1. simpl in *.
  repeat split; assumption.
Qed.

(** ** Conservation of credits *)

Lemma findProject_id (db : Database) (id : string) (p : CarbonProject) :
  Prisma.findProject db id = Some p -> project_id p = id.
Proof.
  unfold Prisma.findProject. intros H. apply find_some in H.
  apply String.eqb_eq. tauto.
Qed.

Lemma conservationb_sound (db : Database) :
  conservationb db = true -> conservation db.
Proof.
  unfold conservationb, conservation. intros H id p Hp.
  unfold Prisma.findProject in Hp. apply find_some in Hp.
  destruct Hp as [Hp _]. rewrite forallb_forall in H. apply H in Hp.
  unfold balancedb in Hp. apply Z.eqb_eq in Hp. exact Hp.
Qed.

Lemma retiredOf_snoc_other (id : string) (ts : list Transaction)
    (t : Transaction) :
  tx_type t <> retirement -> retiredOf id (ts ++ [t]) = retiredOf id ts.
Proof.
  intros H. rewrite retiredOf_app. unfold retiredOf at 2; simpl.
  unfold isRetirementOf. destruct (tx_type t); try contradiction; simpl; lia.
Qed.

Lemma conservation_issueAfterRead (found : option CarbonProject)
    (projectId : string) (n : Z) (clock : nat -> Z) (txId : string)
    (db : Database) :
  conservation db ->
  conservation (snd (issueAfterRead found projectId n clock txId db)).
Proof.
  intros Hdb. unfold issueAfterRead.
  destruct found as [project|]; [|exact Hdb].
  destruct (issueTransaction projectId project n clock txId db)
    as [[out db']|] eqn:H; [|exact Hdb].
  apply issueTransaction_effect in H. destruct H as (_ & E & _).
  simpl. intros id p Hp. subst db'.
  unfold Prisma.findProject in Hp; simpl in Hp.
  specialize (Hdb id p Hp). unfold balanced in *; simpl.
  rewrite retiredOf_snoc_other; [exact Hdb | discriminate].
Qed.

Lemma conservation_purchaseAfterRead (found : option CarbonProject)
    (projectId : string) (n : Z) (buyer txId hash : string) (db : Database) :
  conservation db ->
  conservation
    (snd (purchaseAfterRead found projectId n buyer txId hash db)).
Proof.
  intros Hdb. unfold purchaseAfterRead.
  destruct found as [project|]; [|exact Hdb].
  destruct (availableCredits project <? n); [exact Hdb|].
  destruct (purchaseTransaction project projectId n buyer txId hash db)
    as [db'|] eqn:H; [|exact Hdb].
  apply purchaseTransaction_effect in H.
  destruct H as (_ & _ & T & P & S & _).
  simpl. intros id p' Hp'. rewrite P in Hp'.
  unfold balanced. rewrite T, S.
  rewrite retiredOf_snoc_other by discriminate.
  destruct (String.eqb id projectId) eqn:Hid.
  - apply String.eqb_eq in Hid. subst id.
    destruct (Prisma.findProject db projectId) as [p|] eqn:Hp;
      [|discriminate].
    inversion Hp'; subst p'; clear Hp'. simpl.
    pose proof (findProject_id _ _ _ Hp) as Hpid.
    specialize (Hdb projectId p Hp). unfold balanced in Hdb.
    rewrite Hpid in *. rewrite String.eqb_refl. lia.
  - pose proof (findProject_id _ _ _ Hp') as Hpid.
    specialize (Hdb id p' Hp'). unfold balanced in Hdb.
    rewrite Hpid in *. rewrite String.eqb_sym, Hid. lia.
Qed.

Lemma retire_moves_holding_to_retired (projectId : string) (n : Z)
    (buyer reason txId : string) (db db' : Database) :
  retireTransaction projectId n buyer reason txId db = Some db' ->
  retiredOf projectId (transactions db')
  = retiredOf projectId (transactions db) + n
  /\ holdingsOf projectId (buyer_holdings db')
     = holdingsOf projectId (buyer_holdings db) - n.
Proof.
  intros H. apply retireTransaction_effect in H.
  destruct H as (_ & _ & _ & T & S & _).
  rewrite T, S, retiredOf_app, String.eqb_refl.
  unfold retiredOf at 2; simpl. unfold isRetirementOf; simpl.
  rewrite String.eqb_refl. simpl. lia.
Qed.

Lemma conservation_retireCredits (projectId : string) (n : Z)
    (buyer reason txId : string) (db : Database) :
  conservation db ->
  conservation (snd (retireCredits projectId n buyer reason txId db)).
Proof.
  intros Hdb. unfold retireCredits.
  destruct (retireTransaction projectId n buyer reason txId db)
    as [db'|] eqn:H; [|exact Hdb].
  simpl. apply retireTransaction_effect in H.
  destruct H as (_ & P & _ & T & S & _).
  intros id p Hp. unfold Prisma.findProject in Hp. rewrite P in Hp.
  pose proof (findProject_id db id p Hp) as Hpid.
  specialize (Hdb id p Hp). unfold balanced in *.
  rewrite T, S, retiredOf_app, Hpid in *.
  unfold retiredOf at 2; simpl. unfold isRetirementOf; simpl.
  destruct (String.eqb projectId id); simpl; lia.
Qed.

Lemma conservation_perform (db : Database) (op : Operation) :
  conservation db -> conservation (perform db op).
Proof.
  intros Hdb.
  destruct op as [projectId n clock txId | projectId n buyer txId hash
                 | projectId n buyer reason txId]; simpl.
  - apply conservation_issueAfterRead. exact Hdb.
  - apply conservation_purchaseAfterRead. exact Hdb.
  - apply conservation_retireCredits. exact Hdb.
Qed.

(** C1.  From a registry that satisfies the conservation equation
    (totalCredits = availableCredits + holdings of all buyers + retired
    quantities, for every project), every Issue, Purchase and Retire leads to
    a registry that satisfies it again.  A Retire that succeeds adds its
    quantity to the retired total of the project and takes it from the
    holdings, which is why the equation still balances. *)
Theorem conservation_preserved (db : Database) :
  conservation db ->
  (forall op, conservation (perform db op))
  /\ (forall projectId n buyer reason txId retirementId db',
        retireCredits projectId n buyer reason txId db
        = (RetireOk retirementId, db') ->
        retiredOf projectId (transactions db')
        = retiredOf projectId (transactions db) + n
        /\ holdingsOf projectId (buyer_holdings db')
           = holdingsOf projectId (buyer_holdings db) - n).
Proof.
  intros Hdb. split.
  - intros op. apply conservation_perform. exact Hdb.
  - intros projectId n buyer reason txId retirementId db'.
    unfold retireCredits.
    destruct (retireTransaction projectId n buyer reason txId db)
      as [db1|] eqn:H; [|discriminate].
    intros E. inversion E; subst db1.
    apply (retire_moves_holding_to_retired _ _ _ _ _ _ _ H).
Qed.

(** The equation is an invariant of every sequence of operations ... *)
Lemma conservation_performAll (ops : list Operation) :
  forall db, conservation db -> conservation (performAll db ops).
Proof.
  unfold performAll.
  induction ops as [|op rest IH]; intros db Hdb; simpl; [exact Hdb|].
  apply IH. apply conservation_perform. exact Hdb.
Qed.

(** ... and of every interleaving of concurrent purchase requests. *)
Lemma conservation_resumeNth (n : nat) :
  forall rs db,
    conservation db -> conservation (snd (Concurrent.resumeNth n rs db)).
Proof.
  induction n as [|m IH]; intros [|r rest] db Hdb; simpl; try exact Hdb.
  - unfold Concurrent.resume.
    destruct (Concurrent.req_phase r); simpl; try exact Hdb.
    apply conservation_purchaseAfterRead. exact Hdb.
  - apply IH. exact Hdb.
Qed.

Lemma conservation_run (schedule : list nat) :
  forall rs db,
    conservation db -> conservation (snd (Concurrent.run schedule rs db)).
Proof.
  induction schedule as [|n later IH]; intros rs db Hdb; simpl; [exact Hdb|].
  apply IH. apply conservation_resumeNth. exact Hdb.
Qed.

Section ConservationScenario.
Local Open Scope string_scope.

Lemma conservation_preserved_witness :
  conservation
    (perform Scenario.afterPurchases
             (Retire "prj001" 2000 "u003" "offset" "tx3"))
  /\ retiredOf "prj001"
       (transactions
          (snd (retireCredits "prj001" 2000 "u003" "offset" "tx3"
                              Scenario.afterPurchases)))
     = 0 + 2000.
Proof.
  pose proof (conservation_preserved Scenario.afterPurchases
                (conservationb_sound Scenario.afterPurchases eq_refl))
    as [Hop Hretire].
  split.
  - apply Hop.
  - apply (Hretire "prj001" 2000 "u003" "offset" "tx3" "tx3").
    reflexivity.
Defined.
End ConservationScenario.

(** ** Retirement and the project inventory *)

(** C9.  A Retire that succeeds leaves the table of projects as it was: for
    every project, totalCredits, availableCredits and pricePerCredit are
    unchanged, so retired credits do not return to availableCredits. *)
Theorem retire_keeps_inventory (projectId : string) (n : Z)
    (buyer reason txId retirementId : string) (db db' : Database) :
  retireCredits projectId n buyer reason txId db
  = (RetireOk retirementId, db') ->
  carbon_projects db' = carbon_projects db
  /\ forall id p,
       Prisma.findProject db id = Some p ->
       exists p',
         Prisma.findProject db' id = Some p'
         /\ totalCredits p' = totalCredits p
         /\ availableCredits p' = availableCredits p
         /\ pricePerCredit p' = pricePerCredit p.
Proof.
  unfold retireCredits.
  destruct (retireTransaction projectId n buyer reason txId db)
    as [db1|] eqn:H; [|discriminate].
  intros E. inversion E; subst db1.
  apply retireTransaction_effect in H. destruct H as (_ & P & _).
  split; [exact P|].
  intros id p Hp. exists p. unfold Prisma.findProject in *. rewrite P.
  auto.
Qed.

Section RetireScenario.
Local Open Scope string_scope.

Lemma retire_keeps_inventory_witness :
  map availableCredits
      (carbon_projects
         (snd (retireCredits "prj001" 2000 "u003" "offset" "tx3"
                             Scenario.afterPurchases)))
  = [5000].
Proof.
  pose proof (retire_keeps_inventory
                "prj001" 2000 "u003" "offset" "tx3" "tx3"
                Scenario.afterPurchases
                (snd (retireCredits "prj001" 2000 "u003" "offset" "tx3"
                                    Scenario.afterPurchases))
                eq_refl) as [Hprojects _].
  rewrite Hprojects. reflexivity.
Defined.
End RetireScenario.

(** ** Serial numbers *)

Lemma NoDup_app_disjoint {A : Type} (l l' : list A) :
  NoDup (l ++ l') -> forall x, In x l' -> ~ In x l.
Proof.
  induction l as [|y r IH]; simpl; intros H x Hx; [tauto|].
  inversion H; subst. intros [Hy | Hr].
  - subst y. apply H2. apply in_or_app. right. exact Hx.
  - exact (IH H3 x Hx Hr).
Qed.

Lemma serials_issueAfterRead (found : option CarbonProject)
    (projectId : string) (n : Z) (clock : nat -> Z) (txId : string)
    (db : Database) :
  NoDup (serials db) ->
  NoDup (serials (snd (issueAfterRead found projectId n clock txId db))).
Proof.
  intros Hdb. unfold issueAfterRead.
  destruct found as [project|]; [|exact Hdb].
  destruct (issueTransaction projectId project n clock txId db)
    as [[out db']|] eqn:H; [|exact Hdb].
  apply issueTransaction_effect in H. simpl. tauto.
Qed.

Lemma serials_perform (db : Database) (op : Operation) :
  NoDup (serials db) -> NoDup (serials (perform db op)).
Proof.
  intros Hdb.
  destruct op as [projectId n clock txId | projectId n buyer txId hash
                 | projectId n buyer reason txId]; simpl.
  - apply serials_issueAfterRead. exact Hdb.
  - unfold purchaseCredits, purchaseAfterRead.
    destruct (Prisma.findProject db projectId) as [project|]; [|exact Hdb].
    destruct (availableCredits project <? n); [exact Hdb|].
    destruct (purchaseTransaction project projectId n buyer txId hash db)
      as [db'|] eqn:H; [|exact Hdb].
    apply purchaseTransaction_effect in H. destruct H as (_ & C & _).
    simpl. unfold serials. rewrite C. exact Hdb.
  - unfold retireCredits.
    destruct (retireTransaction projectId n buyer reason txId db)
      as [db'|] eqn:H; [|exact Hdb].
    apply retireTransaction_effect in H. destruct H as (_ & _ & C & _).
    simpl. unfold serials. rewrite C. exact Hdb.
Qed.

Lemma serials_performAll (ops : list Operation) :
  forall db, NoDup (serials db) -> NoDup (serials (performAll db ops)).
Proof.
  unfold performAll.
  induction ops as [|op rest IH]; intros db Hdb; simpl; [exact Hdb|].
  apply IH. apply serials_perform. exact Hdb.
Qed.

(** C8.  Serial numbers stay pairwise distinct: starting from a table of
    batches without duplicate serials, no sequence of operations ever stores
    two batches with the same serial, whatever the clock reads.  An issuance
    commits only when each serial it generated was checked against the
    serials already stored (the unique index of the table, consulted by
    every insert inside the transaction): the serials it returns are new
    and distinct from one another. *)
Theorem serial_numbers_distinct (db : Database) :
  NoDup (serials db) ->
  (forall ops, NoDup (serials (performAll db ops)))
  /\ (forall projectId n clock txId out db',
        issueCredits projectId n clock txId db = (IssueOk out, db') ->
        serials db' = serials db ++ out
        /\ NoDup out
        /\ forall s, In s out -> ~ In s (serials db)).
Proof.
  intros Hdb. split.
  - intros ops. apply serials_performAll. exact Hdb.
  - intros projectId n clock txId out db'. unfold issueCredits, issueAfterRead.
    destruct (Prisma.findProject db projectId) as [project|]; [|discriminate].
    destruct (issueTransaction projectId project n clock txId db)
      as [[out1 db1]|] eqn:H; [|discriminate].
    intros E. inversion E; subst out1 db1; clear E.
    apply issueTransaction_effect in H. destruct H as (Hout & E & Hnd).
    assert (Hs : serials db' = serials db ++ out).
    { rewrite E, Hout. unfold serials; simpl. apply map_app. }
    specialize (Hnd Hdb). rewrite Hs in Hnd.
    split; [exact Hs|]. split.
    + exact (NoDup_app_remove_l _ _ Hnd).
    + exact (NoDup_app_disjoint _ _ Hnd).
Qed.

Section SerialScenario.
Local Open Scope string_scope.

Lemma serial_numbers_distinct_witness :
  NoDup (serials (performAll Demo.fresh Scenario.nearbyIssuances)).
Proof.
  apply (proj1 (serial_numbers_distinct Demo.fresh (NoDup_nil string))).
Defined.

(** The generator alone does not separate them: the second call derives
    serials that the first one stored, its insert is refused and the whole
    issuance is aborted. *)
Example nearby_issuance_is_aborted :
  let db1 := perform Demo.fresh (Issue "prj001" 3 (Demo.clock Scenario.t0) "tx1") in
  serials db1
  = ["BCX-PRJ001-2024-0123"; "BCX-PRJ001-2024-0124"; "BCX-PRJ001-2024-0125"]
  /\ serialOf "prj001" (Demo.project 10000 100) (Scenario.t0 + 1) 0
     = "BCX-PRJ001-2024-0124"
  /\ issueCredits "prj001" 3 (Demo.clock (Scenario.t0 + 1)) "tx2" db1
     = (IssueThrown, db1).
Proof. vm_compute. repeat split. Qed.
End SerialScenario.

(** ** Issuance: batch quantities and non-positive requests *)

Lemma sumZ_batches (projectId : string) (project : CarbonProject)
    (n batchSize : Z) (clock : nat -> Z) (indices : list nat) :
  sumZ (map credit_quantity
          (map (batchOf projectId project n batchSize clock) indices))
  = Z.of_nat (List.length indices) * (n / batchSize).
Proof.
  induction indices as [|i rest IH]; [reflexivity|].
  cbn [map sumZ List.length batchOf credit_quantity]. rewrite IH. lia.
Qed.

(** A committed issuance of [n >= 1] credits stores [min n 5] batches of
    [floor (n / min n 5)] credits each: the remainder of the division is in
    no batch. *)
Lemma issued_quantity (projectId : string) (project : CarbonProject)
    (n : Z) (clock : nat -> Z) :
  1 <= n ->
  batchesOf projectId (issuedBatches projectId project n clock)
  = n - n mod Z.min n 5.
Proof.
  intros Hn. unfold batchesOf, issuedBatches.
  rewrite forallb_filter_id.
  - rewrite sumZ_batches, length_seq, Z2Nat.id by lia.
    pose proof (Z.div_mod n (Z.min n 5)). lia.
  - apply forallb_forall. intros c Hc. apply in_map_iff in Hc.
    destruct Hc as (i & Hi & _). subst c. simpl. apply String.eqb_refl.
Qed.

Section IssuanceScenario.
Local Open Scope string_scope.

(** C3.  Issuing 7 credits for [prj001] succeeds with five batches of one
    credit each: the batches add up to 5, while the issuance entry of the
    ledger records 7. *)
Theorem issue_seven_stores_five :
  let out := issueCredits "prj001" 7 (Demo.clock Scenario.t0) "tx1" Demo.fresh in
  fst out
  = IssueOk ["BCX-PRJ001-2024-0123"; "BCX-PRJ001-2024-0124";
             "BCX-PRJ001-2024-0125"; "BCX-PRJ001-2024-0126";
             "BCX-PRJ001-2024-0127"]
  /\ map credit_quantity (carbon_credits (snd out)) = [1; 1; 1; 1; 1]
  /\ batchesOf "prj001" (carbon_credits (snd out)) = 5
  /\ map tx_quantity (transactions (snd out)) = [7].
Proof. vm_compute. repeat split. Qed.

End IssuanceScenario.


Section NonPositiveScenario.
Local Open Scope string_scope.

End NonPositiveScenario.

Lemma issue_stores_quotient (projectId : string) (n : Z) (clock : nat -> Z)
    (txId : string) (out : list string) (db db' : Database) :
  1 <= n ->
  issueCredits projectId n clock txId db = (IssueOk out, db') ->
  batchesOf projectId (carbon_credits db')
  = batchesOf projectId (carbon_credits db) + (n - n mod Z.min n 5)
  /\ exists t, transactions db' = transactions db ++ [t] /\ tx_quantity t = n.
Proof.
  intros Hn. unfold issueCredits, issueAfterRead.
  destruct (Prisma.findProject db projectId) as [project|]; [|discriminate].
  destruct (issueTransaction projectId project n clock txId db)
    as [[out1 db1]|] eqn:H; [|discriminate].
  intros E. inversion E; subst out1 db1; clear E.
  apply issueTransaction_effect in H. destruct H as (_ & E & _).
  subst db'. simpl. split.
  - rewrite batchesOf_app, issued_quantity by exact Hn. reflexivity.
  - eexists. split; reflexivity.
Qed.

(** ** Purchase: the holding of a returning buyer *)

(** A purchase by a buyer who already holds credits of the project adds the
    quantity to the holding and keeps the stored average price. *)
Lemma purchase_keeps_avgPrice (projectId : string) (n : Z)
    (buyer txId hash : string) (h : BuyerHolding) (db db' : Database)
    (transactionId : string) :
  Prisma.findHolding db buyer projectId = Some h ->
  purchaseCredits projectId n buyer txId hash db
  = (PurchaseOk transactionId, db') ->
  Prisma.findHolding db' buyer projectId
  = Some (mkHolding (buyerId h) (holding_projectId h) (quantity h + n)
                    (avgPrice h)).
Proof.
  intros Hh. unfold purchaseCredits, purchaseAfterRead.
  destruct (Prisma.findProject db projectId) as [project|]; [|discriminate].
  destruct (availableCredits project <? n); [discriminate|].
  destruct (purchaseTransaction project projectId n buyer txId hash db)
    as [db1|] eqn:H; [|discriminate].
  intros E. inversion E; subst db1; clear E.
  apply purchaseTransaction_effect in H.
  destruct H as (_ & _ & _ & _ & _ & F). rewrite F, Hh. reflexivity.
Qed.

Section PurchaseScenario.
Local Open Scope string_scope.

(** C4.  Buyer [u003] holds 4000 credits at average price 100 and buys
    1000 more at the posted price 200: the holding becomes 5000 credits at
    average price 100, not at the weighted average 120. *)
Theorem repeat_purchase_keeps_first_price :
  let db := Demo.registry 6000 200 [Scenario.holding 4000] [] in
  let out := purchaseCredits "prj001" 1000 "u003" "tx2" "0xab" db in
  fst out = PurchaseOk "tx2"
  /\ Prisma.findHolding (snd out) "u003" "prj001"
     = Some (mkHolding "u003" "prj001" 5000 100)
  /\ ((inject_Z 4000 * 100 + inject_Z 1000 * 200) / inject_Z (4000 + 1000)
      == 120)%Q
  /\ ~ (100 == 120)%Q.
Proof. vm_compute. repeat split; discriminate. Qed.
End PurchaseScenario.

(** ** Retirement beyond the holding *)


Section RetireBeyondScenario.
Local Open Scope string_scope.

(** C5.  Buyer [u003] holds 3000 credits of [prj001] and retires 5000:
    the call succeeds, a retirement entry of 5000 is appended to the
    ledger and the holding becomes -2000. *)
Theorem retire_beyond_holding_succeeds :
  let db := Demo.registry 5000 200 [Scenario.holding 3000] [] in
  let out := retireCredits "prj001" 5000 "u003" "offset" "tx3" db in
  fst out = RetireOk "tx3"
  /\ Prisma.findHolding (snd out) "u003" "prj001"
     = Some (mkHolding "u003" "prj001" (-2000) 100)
  /\ map tx_quantity (transactions (snd out)) = [5000].
Proof. vm_compute. repeat split. Qed.
End RetireBeyondScenario.

(** ** Purchases: supply check and concurrent requests *)



(** A request that runs alone goes through the same two steps as
    [purchaseCredits]. *)
Lemma run_alone (projectId : string) (n : Z) (buyer txId hash : string)
    (db : Database) :
  let out := purchaseCredits projectId n buyer txId hash db in
  Concurrent.run [0; 0]%nat
    [Concurrent.newRequest projectId n buyer txId hash] db
  = ([Concurrent.mkRequest projectId n buyer txId hash
        (Concurrent.Returned (fst out))], snd out).
Proof. reflexivity. Qed.

Section RaceScenario.
Local Open Scope string_scope.

(** C2.  Two concurrent requests (N = 2) for one credit each (Q = 1)
    against a project with one credit available (K = 1), both reading the
    project before either transaction runs: both succeed, where
    floor (K / Q) = 1, none fails for lack of supply, and availableCredits
    ends at -1.  Run one after the other, the same requests give one
    success and one refusal. *)
Theorem concurrent_purchases_oversell :
  let out := Concurrent.run Race.interleaved Race.requests Race.lastCredit in
  Concurrent.successes (fst out) = 2%nat
  /\ filter Concurrent.shortOfSupply (fst out) = []
  /\ Race.available (snd out) = Some (-1)
  /\ let serial := Concurrent.run Race.serial Race.requests Race.lastCredit in
     Concurrent.successes (fst serial) = 1%nat
     /\ List.length (filter Concurrent.shortOfSupply (fst serial)) = 1%nat
     /\ Race.available (snd serial) = Some 0.
Proof. vm_compute. repeat split. Qed.

(** C7.  The first request has read the project (one credit available)
    when the second request buys that credit.  When the transaction of the
    first request runs, availableCredits is 0 and the request asks for 1:
    it is not refused, it returns success, appends a purchase to the
    ledger, creates a holding and leaves availableCredits at -1. *)
Theorem purchase_commits_on_stale_read :
  let before := Concurrent.run Race.overtaken Race.requests Race.lastCredit in
  let after := Concurrent.run [0%nat] (fst before) (snd before) in
  Race.available (snd before) = Some 0
  /\ map Concurrent.req_phase (fst before)
     = [Concurrent.HasRead (Some (Demo.project 1 100));
        Concurrent.Returned (PurchaseOk "tx2")]
  /\ map Concurrent.req_phase (fst after)
     = [Concurrent.Returned (PurchaseOk "tx1");
        Concurrent.Returned (PurchaseOk "tx2")]
  /\ Race.available (snd after) = Some (-1)
  /\ map tx_id (transactions (snd after)) = ["tx2"; "tx1"]
  /\ map buyerId (buyer_holdings (snd after)) = ["u004"; "u003"].
Proof. vm_compute. repeat split. Qed.
End RaceScenario.

(** ** Purchases served one after the other

    The counts that the concurrency property asks for are those of a
    serialized execution. *)







(** * Further properties of the ledger actions *)

(** ** Shape of the tables after a transaction *)

Lemma updateFirst_map {A B : Type} (g : A -> B) (sel : A -> bool)
    (f : A -> A) (l l' : list A) :
  (forall x, g (f x) = g x) ->
  Prisma.updateFirst sel f l = Some l' -> map g l' = map g l.
Proof.
  intros Hg. revert l'. induction l as [|x r IH]; intros l' H; simpl in H.
  - discriminate.
  - destruct (sel x).
    + inversion H; subst. simpl. rewrite Hg. reflexivity.
    + destruct (Prisma.updateFirst sel f r) as [r'|]; [|discriminate].
      inversion H; subst. simpl. rewrite (IH r' eq_refl). reflexivity.
Qed.

Lemma updateFirst_some_iff {A : Type} (sel : A -> bool) (f : A -> A)
    (l : list A) :
  (exists l', Prisma.updateFirst sel f l = Some l') <-> existsb sel l = true.
Proof.
  induction l as [|y r IH]; simpl.
  - split; [intros [l' H]; discriminate | discriminate].
  - destruct (sel y); simpl.
    + split; [reflexivity | intros _; eexists; reflexivity].
    + rewrite <- IH. destruct (Prisma.updateFirst sel f r) as [r'|].
      * split; intros _; eexists; reflexivity.
      * split; intros [l' H]; discriminate.
Qed.

(** ** The ledger and the batches only grow *)

Lemma perform_appends (db : Database) (op : Operation) :
  exists ts cs,
    transactions (perform db op) = transactions db ++ ts
    /\ (List.length ts <= 1)%nat
    /\ carbon_credits (perform db op) = carbon_credits db ++ cs
    /\ Forall (fun c => credit_status c = issued) cs
    /\ users (perform db op) = users db.
Proof.
  assert (Hsame : exists ts cs,
             transactions db = transactions db ++ ts
             /\ (List.length ts <= 1)%nat
             /\ carbon_credits db = carbon_credits db ++ cs
             /\ Forall (fun c => credit_status c = issued) cs
             /\ users db = users db).
  { exists [], []. rewrite !app_nil_r. repeat split; auto. }
  destruct op as [projectId n clock txId | projectId n buyer txId hash
                 | projectId n buyer reason txId]; simpl.
  - unfold issueCredits, issueAfterRead.
    destruct (Prisma.findProject db projectId) as [project|]; [|exact Hsame].
    destruct (issueTransaction projectId project n clock txId db)
      as [[out db']|] eqn:H; [|exact Hsame].
    apply issueTransaction_effect in H. destruct H as (_ & E & _).
    subst db'. simpl.
    exists [issuanceEntry projectId project n txId],
           (issuedBatches projectId project n clock).
    split; [reflexivity|]. split; [simpl; lia|]. split; [reflexivity|].
    split; [|reflexivity].
    unfold issuedBatches. apply Forall_forall. intros c Hc.
    apply in_map_iff in Hc. destruct Hc as (i & Hi & _). subst c. reflexivity.
  - unfold purchaseCredits, purchaseAfterRead.
    destruct (Prisma.findProject db projectId) as [project|]; [|exact Hsame].
    destruct (availableCredits project <? n); [exact Hsame|].
    destruct (purchaseTransaction project projectId n buyer txId hash db)
      as [db'|] eqn:H; [|exact Hsame].
    apply purchaseTransaction_effect in H. destruct H as (U & C & T & _).
    simpl. rewrite U, C, T. eexists; exists [].
    split; [reflexivity|]. split; [simpl; lia|].
    split; [symmetry; apply app_nil_r|]. auto.
  - unfold retireCredits.
    destruct (retireTransaction projectId n buyer reason txId db)
      as [db'|] eqn:H; [|exact Hsame].
    apply retireTransaction_effect in H. destruct H as (U & _ & C & T & _).
    simpl. rewrite U, C, T. eexists; exists [].
    split; [reflexivity|]. split; [simpl; lia|].
    split; [symmetry; apply app_nil_r|]. auto.
Qed.

(** X1.  No action rewrites or removes what is stored in the ledger or in
    the table of batches: after any Issue, Purchase or Retire the old ledger
    is a prefix of the new one, which has at most one more entry, the old
    batches are a prefix of the new ones, every added batch has status
    issued, and the users are the same. *)
Theorem ledger_append_only (db : Database) (op : Operation) :
  exists ts cs,
    transactions (perform db op) = transactions db ++ ts
    /\ (List.length ts <= 1)%nat
    /\ carbon_credits (perform db op) = carbon_credits db ++ cs
    /\ Forall (fun c => credit_status c = issued) cs
    /\ users (perform db op) = users db.
Proof. apply perform_appends. Qed.

(** ** Only a purchase touches the inventory, and only availableCredits *)

(** X2.  Issue and Retire leave the table of projects as it is (an issuance
    does not add to availableCredits); a Purchase changes nothing but
    availableCredits: ids, developers, vintages, totalCredits and prices of
    all projects are the same after any action. *)
Theorem inventory_fixed_columns (db : Database) (op : Operation) :
  map fixedColumns (carbon_projects (perform db op))
  = map fixedColumns (carbon_projects db)
  /\ match op with
     | Purchase _ _ _ _ _ => True
     | _ => carbon_projects (perform db op) = carbon_projects db
     end.
Proof.
  destruct op as [projectId n clock txId | projectId n buyer txId hash
                 | projectId n buyer reason txId]; simpl.
  - assert (H : carbon_projects (snd (issueCredits projectId n clock txId db))
                = carbon_projects db).
    { unfold issueCredits, issueAfterRead.
      destruct (Prisma.findProject db projectId) as [project|];
        [|reflexivity].
      destruct (issueTransaction projectId project n clock txId db)
        as [[out db']|] eqn:H; [|reflexivity].
      apply issueTransaction_effect in H. destruct H as (_ & E & _).
      subst db'. reflexivity. }
    rewrite H. split; reflexivity.
  - split; [|exact I]. unfold purchaseCredits, purchaseAfterRead.
    destruct (Prisma.findProject db projectId) as [project|]; [|reflexivity].
    destruct (availableCredits project <? n); [reflexivity|].
    destruct (purchaseTransaction project projectId n buyer txId hash db)
      as [db'|] eqn:H; [|reflexivity].
    apply purchase_tables in H. destruct H as (P & _). simpl.
    eapply updateFirst_map; [|exact P]. intros p. reflexivity.
  - assert (H : carbon_projects
                  (snd (retireCredits projectId n buyer reason txId db))
                = carbon_projects db).
    { unfold retireCredits.
      destruct (retireTransaction projectId n buyer reason txId db)
        as [db'|] eqn:H; [|reflexivity].
      apply retireTransaction_effect in H. tauto. }
    rewrite H. split; reflexivity.
Qed.

(** ** One holding per buyer and project *)

Lemma holdingKey_spec (buyer project : string) (h : BuyerHolding) :
  Prisma.holdingKey buyer project h = true
  <-> (buyerId h, holding_projectId h) = (buyer, project).
Proof.
  unfold Prisma.holdingKey. rewrite andb_true_iff, !String.eqb_eq.
  split; [intros [-> ->]; reflexivity | intros H; inversion H; auto].
Qed.

Lemma holdingKeys_perform (db : Database) (op : Operation) :
  holdingKeys (perform db op) = holdingKeys db
  \/ exists buyer project,
       holdingKeys (perform db op) = holdingKeys db ++ [(buyer, project)]
       /\ ~ In (buyer, project) (holdingKeys db).
Proof.
  unfold holdingKeys.
  destruct op as [projectId n clock txId | projectId n buyer txId hash
                 | projectId n buyer reason txId]; simpl.
  - left. unfold issueCredits, issueAfterRead.
    destruct (Prisma.findProject db projectId) as [project|]; [|reflexivity].
    destruct (issueTransaction projectId project n clock txId db)
      as [[out db']|] eqn:H; [|reflexivity].
    apply issueTransaction_effect in H. destruct H as (_ & E & _).
    subst db'. reflexivity.
  - unfold purchaseCredits, purchaseAfterRead.
    destruct (Prisma.findProject db projectId) as [project|];
      [|left; reflexivity].
    destruct (availableCredits project <? n); [left; reflexivity|].
    destruct (purchaseTransaction project projectId n buyer txId hash db)
      as [db'|] eqn:H; [|left; reflexivity].
    apply purchase_tables in H. destruct H as (_ & [Hu | [Hnone Happ]] & _).
    + left. simpl.
      eapply updateFirst_map; [|exact Hu]. intros h. reflexivity.
    + right. exists buyer, projectId. simpl. rewrite Happ, map_app.
      split; [reflexivity|]. intros Hin. apply in_map_iff in Hin.
      destruct Hin as (h & Hk & Hh).
      pose proof (updateFirst_none_all _ _ _ Hnone h Hh) as Hf.
      apply holdingKey_spec in Hk. congruence.
  - left. unfold retireCredits.
    destruct (retireTransaction projectId n buyer reason txId db)
      as [db'|] eqn:H; [|reflexivity].
    apply retire_tables in H. destruct H as (Hu & _). simpl.
    eapply updateFirst_map; [|exact Hu]. intros h. reflexivity.
Qed.

(** X3.  The actions keep the holdings table free of duplicates: when no
    two holdings share their (buyer, project) pair, no sequence of Issue,
    Purchase and Retire produces two holdings for one pair. *)
Theorem holding_keys_unique (ops : list Operation) (db : Database) :
  NoDup (holdingKeys db) -> NoDup (holdingKeys (performAll db ops)).
Proof.
  unfold performAll. revert db.
  induction ops as [|op rest IH]; intros db Hdb; simpl; [exact Hdb|].
  apply IH.
  destruct (holdingKeys_perform db op) as [E | (buyer & project & E & Hnew)];
    rewrite E; [exact Hdb|].
  apply NoDup_snoc; assumption.
Qed.

Section HoldingKeysScenario.
Local Open Scope string_scope.

Lemma holding_keys_unique_witness :
  NoDup (holdingKeys
           (performAll Demo.fresh
              [ Purchase "prj001" 4000 "u003" "tx1" "0xa1";
                Purchase "prj001" 1000 "u003" "tx2" "0xb2";
                Purchase "prj001" 500 "u004" "tx3" "0xc3";
                Retire "prj001" 2000 "u003" "offset" "tx4" ])).
Proof.
  apply (holding_keys_unique _ Demo.fresh). constructor.
Defined.
End HoldingKeysScenario.

(** ** When a purchase is accepted, and what it does *)


(** X5.  An accepted purchase of [n] credits takes exactly [n] from the
    availableCredits of the project and leaves the other projects alone; it
    appends to the ledger one confirmed purchase of [n] credits from the
    developer to the buyer at the posted price, whose total value is
    [n * price] exactly when the price is a whole number and the product is
    at most 2^53 in absolute value; and it gives the buyer a holding of [n]
    credits at that price, or adds [n] to the holding the buyer already has,
    whose average price it keeps. *)
Theorem purchase_effect (projectId : string) (n : Z)
    (buyer txId hash transactionId : string) (db db' : Database) :
  purchaseCredits projectId n buyer txId hash db
  = (PurchaseOk transactionId, db') ->
  exists p entry,
    Prisma.findProject db projectId = Some p
    /\ Prisma.findProject db' projectId
       = Some (Prisma.withAvailable p (availableCredits p - n))
    /\ (forall id, id <> projectId ->
          Prisma.findProject db' id = Prisma.findProject db id)
    /\ transactions db' = transactions db ++ [entry]
    /\ (tx_id entry, tx_type entry, tx_projectId entry, tx_status entry)
       = (txId, purchase, projectId, confirmed)
    /\ (fromUserId entry, toUserId entry, tx_quantity entry,
        tx_pricePerCredit entry)
       = (Some (developerId p), buyer, n, Some (pricePerCredit p))
    /\ (forall k,
          (pricePerCredit p == inject_Z k)%Q ->
          Z.abs (n * k) <= 2 ^ 53 ->
          exists v, totalValue entry = Some v /\ (v == inject_Z (n * k))%Q)
    /\ Prisma.findHolding db' buyer projectId
       = Some (match Prisma.findHolding db buyer projectId with
               | Some h =>
                   mkHolding (buyerId h) (holding_projectId h)
                             (quantity h + n) (avgPrice h)
               | None => mkHolding buyer projectId n (pricePerCredit p)
               end).
Proof.
  unfold purchaseCredits, purchaseAfterRead.
  destruct (Prisma.findProject db projectId) as [p|] eqn:Hp; [|discriminate].
  destruct (availableCredits p <? n); [discriminate|].
  destruct (purchaseTransaction p projectId n buyer txId hash db)
    as [db1|] eqn:H; [|discriminate].
  intros E. inversion E; subst db1 transactionId; clear E.
  apply purchaseTransaction_effect in H.
  destruct H as (_ & _ & T & P & _ & F).
  exists p. eexists. split; [reflexivity|].
  split; [|split; [|split; [exact T|]]].
  - rewrite P, String.eqb_refl, Hp. reflexivity.
  - intros id Hid. rewrite P. apply String.eqb_neq in Hid. rewrite Hid.
    reflexivity.
  - cbn [tx_id tx_type tx_projectId tx_status fromUserId toUserId
         tx_quantity tx_pricePerCredit totalValue].
    split; [reflexivity|]. split; [reflexivity|]. split.
    + intros k Hk _. eexists. split; [reflexivity|].
      rewrite Hk, <- inject_Z_mult. reflexivity.
    + rewrite F.
      destruct (Prisma.findHolding db buyer projectId); reflexivity.
Qed.

Section PurchaseEffectScenario.
Local Open Scope string_scope.

Lemma purchase_effect_witness :
  Prisma.findHolding
    (snd (purchaseCredits "prj001" 4000 "u003" "tx1" "0xa1" Demo.fresh))
    "u003" "prj001"
  = Some (mkHolding "u003" "prj001" 4000 100).
Proof.
  destruct (purchase_effect "prj001" 4000 "u003" "tx1" "0xa1" "tx1"
              Demo.fresh
              (snd (purchaseCredits "prj001" 4000 "u003" "tx1" "0xa1"
                                    Demo.fresh))
              eq_refl) as (p & entry & Hp & _ & _ & _ & _ & _ & _ & Hh).
  inversion Hp; subst p. exact Hh.
Defined.
End PurchaseEffectScenario.

(** ** Quantities outside the range of [INTEGER]

    The quantity columns hold 32-bit integers.  A statement that would store
    a value outside [-2147483648, 2147483647] is refused by the storage, the
    transaction is rolled back and the action reports the exception (or, for
    [issueCredits], lets it escape). *)

Section RangeScenario.
Local Open Scope string_scope.

Example issue_below_range_throws :
  issueCredits "prj001" (-3000000000) (Demo.clock Scenario.t0) "tx1"
               Demo.fresh
  = (IssueThrown, Demo.fresh).
Proof. reflexivity. Qed.

Example issue_above_range_throws :
  issueCredits "prj001" 3000000000 (Demo.clock Scenario.t0) "tx1" Demo.fresh
  = (IssueThrown, Demo.fresh).
Proof. vm_compute. reflexivity. Qed.

Example purchase_past_range_throws :
  purchaseCredits "prj001" (-1) "u003" "tx1" "0xa1"
                  (Demo.registry 2147483647 100 [] [])
  = (PurchaseFailed PurchaseThrown, Demo.registry 2147483647 100 [] []).
Proof. reflexivity. Qed.

Example purchase_holding_past_range_throws :
  purchaseCredits "prj001" 1 "u003" "tx1" "0xa1"
                  (Demo.registry 1 100 [Scenario.holding 2147483647] [])
  = (PurchaseFailed PurchaseThrown,
     Demo.registry 1 100 [Scenario.holding 2147483647] []).
Proof. reflexivity. Qed.

Example retire_outside_range_fails :
  retireCredits "prj001" 4000000000 "u003" "offset" "tx3"
                Scenario.afterPurchases
  = (RetireFailed, Scenario.afterPurchases).
Proof. reflexivity. Qed.

Example retire_holding_past_range_fails :
  retireCredits "prj001" (-1) "u003" "offset" "tx3"
                (Demo.registry 1 100 [Scenario.holding 2147483647] [])
  = (RetireFailed, Demo.registry 1 100 [Scenario.holding 2147483647] []).
Proof. reflexivity. Qed.
End RangeScenario.

(** ** When a retirement is accepted *)


(** ** When an issuance commits *)

Lemma serialTaken_true (db : Database) (s : string) :
  In s (serials db) -> Prisma.serialTaken db s = true.
Proof.
  unfold Prisma.serialTaken, serials. intros Hin.
  apply in_map_iff in Hin. destruct Hin as (c & Hc & Hin).
  apply existsb_exists. exists c. split; [exact Hin|].
  rewrite Hc. apply String.eqb_refl.
Qed.






Section IssueOutcomeScenario.
Local Open Scope string_scope.

End IssueOutcomeScenario.

(** ** The totals of the dashboards *)

Lemma sumZ_issuedBatches (projectId : string) (project : CarbonProject)
    (n : Z) (clock : nat -> Z) :
  1 <= n ->
  sumZ (map credit_quantity (issuedBatches projectId project n clock))
  = n - n mod Z.min n 5.
Proof.
  intros Hn. unfold issuedBatches.
  rewrite sumZ_batches, length_seq, Z2Nat.id by lia.
  pose proof (Z.div_mod n (Z.min n 5)). lia.
Qed.

(** X8.  A committed issuance of [n >= 1] credits raises the total of
    issued credits by [n - n mod min n 5]: by exactly [n] when [n <= 5] or
    when 5 divides [n], by less than [n] in every other case, while its
    ledger entry always records [n]. *)
Theorem issue_raises_total (projectId : string) (n : Z) (clock : nat -> Z)
    (txId : string) (out : list string) (db db' : Database) :
  1 <= n ->
  issueCredits projectId n clock txId db = (IssueOk out, db') ->
  totalCreditsIssued db' = totalCreditsIssued db + (n - n mod Z.min n 5)
  /\ (totalCreditsIssued db' = totalCreditsIssued db + n
      <-> n <= 5 \/ n mod 5 = 0)
  /\ map tx_quantity (transactions db')
     = map tx_quantity (transactions db) ++ [n].
Proof.
  intros Hn. unfold issueCredits, issueAfterRead.
  destruct (Prisma.findProject db projectId) as [project|]; [|discriminate].
  destruct (issueTransaction projectId project n clock txId db)
    as [[out1 db1]|] eqn:H; [|discriminate].
  intros E. inversion E; subst out1 db1; clear E.
  apply issueTransaction_effect in H. destruct H as (_ & E & _).
  assert (Htotal : totalCreditsIssued db'
                   = totalCreditsIssued db + (n - n mod Z.min n 5)).
  { subst db'. unfold totalCreditsIssued; simpl.
    rewrite map_app, sumZ_app, sumZ_issuedBatches by exact Hn. reflexivity. }
  split; [exact Htotal|]. split.
  - rewrite Htotal. destruct (Z_le_gt_dec n 5) as [Hle | Hgt].
    + rewrite Z.min_l by lia. rewrite Z.mod_same by lia. intuition lia.
    + rewrite Z.min_r by lia. intuition lia.
  - subst db'. simpl. rewrite map_app. reflexivity.
Qed.

Section IssueTotalScenario.
Local Open Scope string_scope.

Lemma issue_raises_total_witness :
  totalCreditsIssued
    (snd (issueCredits "prj001" 12 (Demo.clock Scenario.t0) "tx1" Demo.fresh))
  = 0 + (12 - 12 mod Z.min 12 5).
Proof.
  assert (H12 : 1 <= 12) by lia.
  exact (proj1 (issue_raises_total "prj001" 12 (Demo.clock Scenario.t0) "tx1"
                  _ Demo.fresh _ H12 eq_refl)).
Defined.
End IssueTotalScenario.

Lemma retired_total_perform (db : Database) (op : Operation) :
  totalCreditsRetired (perform db op) = totalCreditsRetired db.
Proof.
  destruct (perform_appends db op) as (ts & cs & _ & _ & C & Hissued & _).
  unfold totalCreditsRetired. rewrite C, filter_app, map_app, sumZ_app.
  assert (Hnone : filter isRetiredCredit cs = []).
  { clear C. induction cs as [|c r IH]; [reflexivity|].
    inversion Hissued; subst. simpl. unfold isRetiredCredit at 1.
    rewrite H1. apply IH. assumption. }
  rewrite Hnone. simpl. lia.
Qed.

(** X9.  The retired total of the admin dashboard (the quantities of the
    batches whose status is retired) is the same after any sequence of
    Issue, Purchase and Retire as before it: a retirement does not mark any
    batch as retired and so never shows in this total. *)
Theorem retired_total_never_moves (ops : list Operation) (db : Database) :
  totalCreditsRetired (performAll db ops) = totalCreditsRetired db.
Proof.
  unfold performAll. revert db.
  induction ops as [|op rest IH]; intros db; simpl; [reflexivity|].
  rewrite IH. apply retired_total_perform.
Qed.

(** X10.  The traded total of the admin dashboard goes up by the quantity
    of every accepted purchase and is left alone by everything else: a
    refused purchase, an issuance, a retirement. *)
Theorem traded_total_counts_purchases (db : Database) (op : Operation) :
  totalCreditsTraded (perform db op)
  = totalCreditsTraded db
    + match op with
      | Purchase projectId n buyer txId hash =>
          if isOk (fst (purchaseCredits projectId n buyer txId hash db))
          then n else 0
      | _ => 0
      end.
Proof.
  unfold totalCreditsTraded.
  destruct op as [projectId n clock txId | projectId n buyer txId hash
                 | projectId n buyer reason txId]; simpl.
  - unfold issueCredits, issueAfterRead.
    destruct (Prisma.findProject db projectId) as [project|]; [|simpl; lia].
    destruct (issueTransaction projectId project n clock txId db)
      as [[out db']|] eqn:H; [|simpl; lia].
    apply issueTransaction_effect in H. destruct H as (_ & E & _).
    subst db'. simpl. rewrite filter_app, map_app, sumZ_app. simpl. lia.
  - unfold purchaseCredits, purchaseAfterRead.
    destruct (Prisma.findProject db projectId) as [project|]; [|simpl; lia].
    destruct (availableCredits project <? n); [simpl; lia|].
    destruct (purchaseTransaction project projectId n buyer txId hash db)
      as [db'|] eqn:H; [|simpl; lia].
    apply purchaseTransaction_effect in H. destruct H as (_ & _ & T & _).
    simpl. rewrite T, filter_app, map_app, sumZ_app. simpl. lia.
  - unfold retireCredits.
    destruct (retireTransaction projectId n buyer reason txId db)
      as [db'|] eqn:H; [|simpl; lia].
    apply retireTransaction_effect in H. destruct H as (_ & _ & _ & T & _).
    simpl. rewrite T, filter_app, map_app, sumZ_app. simpl. lia.
Qed.

Lemma fold_sum_quantity (l : list BuyerHolding) (a : Z) :
  fold_left (fun sum h => sum + quantity h) l a = a + sumZ (map quantity l).
Proof.
  revert a. induction l as [|h r IH]; intros a; simpl; [lia|].
  rewrite IH. lia.
Qed.

Lemma owned_updateFirst (upd : Z -> Z) (buyer project b : string)
    (hs hs' : list BuyerHolding) :
  Prisma.updateFirst (Prisma.holdingKey buyer project)
    (fun h => Prisma.withQuantity h (upd (quantity h))) hs = Some hs' ->
  exists h,
    find (Prisma.holdingKey buyer project) hs = Some h
    /\ sumZ (map quantity
               (filter (fun h => String.eqb (buyerId h) b) hs'))
       = sumZ (map quantity
                 (filter (fun h => String.eqb (buyerId h) b) hs))
         + (if String.eqb buyer b then upd (quantity h) - quantity h else 0).
Proof.
  revert hs'. induction hs as [|x r IH]; intros hs' H; simpl in H.
  - discriminate.
  - destruct (Prisma.holdingKey buyer project x) eqn:Hx.
    + inversion H; subst hs'; clear H. exists x. simpl. rewrite Hx.
      split; [reflexivity|].
      apply holdingKey_spec in Hx. inversion Hx as [[Hb Hp]].
      rewrite Hb. destruct (String.eqb buyer b); simpl; lia.
    + destruct (Prisma.updateFirst _ _ r) as [r'|] eqn:Hr; [|discriminate].
      inversion H; subst hs'; clear H.
      destruct (IH r' eq_refl) as (h & Hf & Hsum).
      exists h. simpl. rewrite Hx. split; [exact Hf|].
      destruct (String.eqb (buyerId x) b); simpl; rewrite Hsum; lia.
Qed.

(** X11.  The credits owned that the buyer portfolio reports follow the
    actions: an accepted purchase adds its quantity to the total of its
    buyer, an accepted retirement takes its quantity from it, and nothing
    else moves the total of any buyer. *)
Theorem owned_total_follows_actions (b : string) (db : Database)
    (op : Operation) :
  totalCreditsOwned b (perform db op)
  = totalCreditsOwned b db
    + match op with
      | Issue _ _ _ _ => 0
      | Purchase projectId n buyer txId hash =>
          match fst (purchaseCredits projectId n buyer txId hash db) with
          | PurchaseOk _ => if String.eqb buyer b then n else 0
          | PurchaseFailed _ => 0
          end
      | Retire projectId n buyer reason txId =>
          match fst (retireCredits projectId n buyer reason txId db) with
          | RetireOk _ => if String.eqb buyer b then - n else 0
          | RetireFailed => 0
          end
      end.
Proof.
  unfold totalCreditsOwned. rewrite !fold_sum_quantity.
  destruct op as [projectId n clock txId | projectId n buyer txId hash
                 | projectId n buyer reason txId]; simpl.
  - unfold issueCredits, issueAfterRead.
    destruct (Prisma.findProject db projectId) as [project|]; [|simpl; lia].
    destruct (issueTransaction projectId project n clock txId db)
      as [[out db']|] eqn:H; [|simpl; lia].
    apply issueTransaction_effect in H. destruct H as (_ & E & _).
    subst db'. simpl. lia.
  - unfold purchaseCredits, purchaseAfterRead.
    destruct (Prisma.findProject db projectId) as [project|]; [|simpl; lia].
    destruct (availableCredits project <? n); [simpl; lia|].
    destruct (purchaseTransaction project projectId n buyer txId hash db)
      as [db'|] eqn:H; [|simpl; lia].
    apply purchase_tables in H. destruct H as (_ & [Hu | [_ Happ]] & _).
    + simpl.
      destruct (owned_updateFirst (fun v => v + n) buyer projectId b _ _ Hu)
        as (h & _ & Hsum).
      rewrite Hsum. destruct (String.eqb buyer b); lia.
    + simpl. rewrite Happ, filter_app, map_app, sumZ_app. simpl.
      destruct (String.eqb buyer b); simpl; lia.
  - unfold retireCredits.
    destruct (retireTransaction projectId n buyer reason txId db)
      as [db'|] eqn:H; [|simpl; lia].
    apply retire_tables in H. destruct H as (Hu & _). simpl.
    destruct (owned_updateFirst (fun v => v - n) buyer projectId b _ _ Hu)
      as (h & _ & Hsum).
    rewrite Hsum. destruct (String.eqb buyer b); lia.
Qed.

(** ** Purchases under concurrency and in sequence *)

(** X12.  However concurrent purchase requests interleave, the registry
    they leave satisfies the conservation equation when the registry they
    started from did: an oversold project has negative availableCredits,
    and its holdings exceed totalCredits by as much. *)
Theorem conservation_under_interleaving (schedule : list nat)
    (rs : list Concurrent.Request) (db : Database) :
  conservation db -> conservation (snd (Concurrent.run schedule rs db)).
Proof. apply conservation_run. Qed.

Section InterleavingScenario.
Local Open Scope string_scope.

Lemma conservation_under_interleaving_witness :
  conservation
    (snd (Concurrent.run [0; 1; 0; 1]%nat
            [ Concurrent.newRequest "prj001" 6000 "u003" "tx1" "0xa1";
              Concurrent.newRequest "prj001" 6000 "u004" "tx2" "0xb2" ]
            Demo.fresh)).
Proof.
  apply (conservation_under_interleaving _ _ Demo.fresh).
  apply conservationb_sound. reflexivity.
Defined.


End InterleavingScenario.

(** * Further properties of the integrity score *)

Module IntegrityScoreBounds.
Import IntegrityScore ScoreBounds.
Open Scope Q_scope.

Lemma patterns_bounds (test : RegExp -> string -> bool) (text : string)
    (w : Q) (ps : list RegExp) :
  0 <= w -> forall acc,
  acc <= fold_left (fun points pattern =>
                      if test pattern text then points + w else points) ps acc
      <= acc + w * inject_Z (Z.of_nat (List.length ps)).
Proof.
  intros Hw. induction ps as [|p r IH]; intros acc.
  - simpl. change (inject_Z 0) with 0. lra.
  - cbn [fold_left List.length]. rewrite Nat2Z.inj_succ. unfold Z.succ.
    rewrite inject_Z_plus. change (inject_Z 1) with 1.
    assert (Hx : 0 <= inject_Z (Z.of_nat (List.length r))).
    { change 0 with (inject_Z 0). rewrite <- Zle_Qle. lia. }
    set (x := inject_Z (Z.of_nat (List.length r))) in *.
    destruct (test p text).
    + specialize (IH (acc + w)). lra.
    + specialize (IH acc).
      assert (0 <= w * x) by (apply Qmult_le_0_compat; assumption).
      lra.
Qed.

Lemma points_bounds (test : RegExp -> string -> bool) (text : string)
    (rules : list KeywordRule) :
  nonNegative rules -> forall acc,
  acc <= fold_left (rulePoints test text) rules acc <= acc + maxPoints rules.
Proof.
  induction 1 as [|r rest Hr Hrest IH]; intros acc; simpl.
  - lra.
  - pose proof (patterns_bounds test text (weight r) (patterns r) Hr acc) as Hp.
    fold (rulePoints test text acc r) in Hp.
    specialize (IH (rulePoints test text acc r)). lra.
Qed.

Lemma evaluateRules_bounds (test : RegExp -> string -> bool) (text : string)
    (rules : list KeywordRule) :
  nonNegative rules ->
  BASE_SCORE <= evaluateRules test text rules
  <= BASE_SCORE + maxPoints rules * KEYWORD_SCALING.
Proof.
  intros H. unfold evaluateRules.
  pose proof (points_bounds test text rules H 0) as Hb.
  set (k := fold_left (rulePoints test text) rules 0) in *.
  unfold BASE_SCORE, KEYWORD_SCALING. lra.
Qed.

Lemma ruleSets_nonNegative : Forall nonNegative ruleSets.
Proof.
  unfold ruleSets, nonNegative.
  repeat (constructor; [repeat (constructor; [discriminate|]); constructor|]).
  constructor.
Qed.

(** X14.  Whatever the text and whatever the regular-expression engine
    answers, the raw score of each of the six parameters lies between the
    base score 45 and a whole number just above 45 plus 1.2 times the
    weight of all its patterns: at most 147, 146, 150, 128, 150 and 140.
    The bounds are whole numbers so that they also hold for the doubles of
    the program, where [45 + 84 * 1.2] and [45 + 79 * 1.2] come out a
    little above 145.8 and 139.8. *)
Theorem raw_scores_bounded (test : RegExp -> string -> bool) (text : string) :
  45 <= evaluateRules test text ADDITIONALITY_RULES <= 147
  /\ 45 <= evaluateRules test text PERMANENCE_RULES <= 146
  /\ 45 <= evaluateRules test text MRV_RULES <= 150
  /\ 45 <= evaluateRules test text LEAKAGE_RULES <= 128
  /\ 45 <= evaluateRules test text REGISTRY_QUALITY_RULES <= 150
  /\ 45 <= evaluateRules test text CORRESPONDING_ADJUSTMENT_RULES <= 140.
Proof.
  pose proof ruleSets_nonNegative as H. unfold ruleSets in H.
  repeat match type of H with
         | Forall _ (?r :: _) =>
             let Hr := fresh "Hr" in
             inversion H as [|? ? Hr H']; subst; clear H; rename H' into H;
             apply (evaluateRules_bounds test text) in Hr
         end.
  repeat split;
    match goal with
    | Hr : _ <= evaluateRules test text ?r <= _ |- _ <= evaluateRules test text ?r =>
        exact (proj1 Hr)
    | Hr : _ <= evaluateRules test text ?r <= _ |- evaluateRules test text ?r <= _ =>
        eapply Qle_trans; [exact (proj2 Hr) | vm_compute; discriminate]
    end.
Qed.

Lemma round_mono (x y : Q) : x <= y -> (round x <= round y)%Z.
Proof.
  intros H. unfold round. apply Qfloor_resp_le. apply Qplus_le_l. exact H.
Qed.

Lemma clampAndRound_mono (v w : Q) :
  v <= w ->
  (clampAndRound v MIN_SCORE MAX_SCORE <= clampAndRound w MIN_SCORE MAX_SCORE)%Z.
Proof.
  intros H. unfold clampAndRound. apply round_mono.
  apply Q.min_le_compat_l. apply Q.max_le_compat_l. exact H.
Qed.

Lemma clampAndRound_between (a b : Z) (v : Q) :
  (30 <= a)%Z -> (b <= 95)%Z -> inject_Z a <= v <= inject_Z b ->
  (a <= clampAndRound v MIN_SCORE MAX_SCORE <= b)%Z.
Proof.
  intros Ha Hb [Hav Hvb]. unfold clampAndRound.
  apply IntegrityScoreFacts.round_between.
  assert (Ha' : MIN_SCORE <= inject_Z a).
  { unfold MIN_SCORE. change 30 with (inject_Z 30). rewrite <- Zle_Qle. exact Ha. }
  assert (Hb' : inject_Z b <= MAX_SCORE).
  { unfold MAX_SCORE. change 95 with (inject_Z 95). rewrite <- Zle_Qle. exact Hb. }
  split.
  - apply Q.min_glb.
    + apply Qle_trans with v; [exact Hav|]. apply Qle_trans with (inject_Z b); assumption.
    + apply Qle_trans with v; [exact Hav | apply Q.le_max_r].
  - apply Qle_trans with (Qmax MIN_SCORE v); [apply Q.le_min_r|].
    apply Q.max_lub; [|exact Hvb].
    apply Qle_trans with (inject_Z a); [exact Ha'|].
    apply Qle_trans with v; assumption.
Qed.

(** X15.  For a random draw in [0, 1) the jitter shifts a value by less
    than 5 either way, so the parameter computed from a raw value [v] lies
    between the parameters computed from [v - 5] and from [v + 5]. *)
Theorem jitter_moves_at_most_five (v r : Q) :
  0 <= r < 1 ->
  (clampAndRound (v - 5) MIN_SCORE MAX_SCORE
   <= clampAndRound (applyJitter v r JITTER_RANGE) MIN_SCORE MAX_SCORE
   <= clampAndRound (v + 5) MIN_SCORE MAX_SCORE)%Z.
Proof.
  intros [Hr0 Hr1].
  assert (Hj : v - 5 <= applyJitter v r JITTER_RANGE <= v + 5).
  { unfold applyJitter, JITTER_RANGE. cbv zeta.
    assert (Hhalf : 10 / 2 == 5) by reflexivity.
    rewrite Hhalf. lra. }
  split; apply clampAndRound_mono; tauto.
Qed.

Lemma jitter_moves_at_most_five_witness :
  (clampAndRound (45 - 5) MIN_SCORE MAX_SCORE
   <= clampAndRound (applyJitter 45 (1 # 2) JITTER_RANGE) MIN_SCORE MAX_SCORE
   <= clampAndRound (45 + 5) MIN_SCORE MAX_SCORE)%Z.
Proof.
  apply (jitter_moves_at_most_five 45 (1 # 2)). split; [discriminate | reflexivity].
Defined.

Lemma no_match_points (test : RegExp -> string -> bool) (text : string) :
  (forall pattern, test pattern text = false) ->
  forall rules acc, fold_left (rulePoints test text) rules acc = acc.
Proof.
  intros Hno. induction rules as [|r rest IH]; intros acc; simpl; [reflexivity|].
  rewrite IH. unfold rulePoints. generalize (patterns r).
  intros ps. revert acc. induction ps as [|p ps IHp]; intros acc; simpl;
    [reflexivity|].
  rewrite Hno. apply IHp.
Qed.

Lemma jittered_base (r : Q) :
  0 <= r < 1 ->
  (40 <= clampAndRound
           (applyJitter (BASE_SCORE + 0 * KEYWORD_SCALING) r JITTER_RANGE)
           MIN_SCORE MAX_SCORE <= 50)%Z.
Proof.
  intros [Hr0 Hr1]. apply clampAndRound_between; try lia.
  unfold applyJitter, JITTER_RANGE, BASE_SCORE, KEYWORD_SCALING. cbv zeta.
  assert (Hhalf : 10 / 2 == 5) by reflexivity. rewrite Hhalf.
  change (inject_Z 40) with 40. change (inject_Z 50) with 50. lra.
Qed.

(** X16.  When no pattern matches the description (the empty description,
    for one) and the random draws are in [0, 1), each of the six parameters
    is between 40 and 50. *)
Theorem no_keyword_parameters (test : RegExp -> string -> bool)
    (pow : Q -> Q -> Q) (description : string) (random : nat -> Q) :
  (forall pattern, test pattern description = false) ->
  (forall k, 0 <= random k < 1) ->
  parametersBetween 40 50
    (parameters
       (calculateIntegrityScoreFromDescription test pow description random)).
Proof.
  intros Hno Hrandom.
  unfold calculateIntegrityScoreFromDescription, parametersBetween.
  cbn [parameters additionality permanence mrv leakage registryQuality
       correspondingAdjustment].
  unfold evaluateRules. rewrite !(no_match_points test description Hno).
  repeat split; apply jittered_base; apply Hrandom.
Qed.

Lemma no_keyword_parameters_witness :
  parametersBetween 40 50
    (parameters
       (calculateIntegrityScoreFromDescription noMatch chord EmptyString
          midDraw)).
Proof.
  apply no_keyword_parameters.
  - reflexivity.
  - intros k. split; [discriminate | reflexivity].
Defined.

Lemma weightedSum_range (a b c d e f : Z) :
  inRange a -> inRange b -> inRange c -> inRange d -> inRange e ->
  inRange f ->
  30 <= inject_Z a * W_additionality + inject_Z b * W_permanence
        + inject_Z c * W_mrv + inject_Z d * W_leakage
        + inject_Z e * W_registryQuality
        + inject_Z f * W_correspondingAdjustment <= 95.
Proof.
  unfold inRange. rewrite !Zle_Qle.
  change (inject_Z 30) with 30. change (inject_Z 95) with 95.
  unfold W_additionality, W_permanence, W_mrv, W_leakage, W_registryQuality,
    W_correspondingAdjustment.
  intros; lra.
Qed.

Lemma score_from_pow (test : RegExp -> string -> bool) (pow : Q -> Q -> Q)
    (description : string) (random : nat -> Q) :
  exists ws,
    30 <= ws <= 95
    /\ score (calculateIntegrityScoreFromDescription test pow description
                random)
       = round (Qmin MAX_SCORE
                  (Qmax MIN_SCORE (BASE_SCORE + pow ws 0.9 * 0.6))).
Proof.
  unfold calculateIntegrityScoreFromDescription. cbn [score].
  cbn [additionality permanence mrv leakage registryQuality
       correspondingAdjustment].
  eexists. split; [|reflexivity].
  apply weightedSum_range; apply IntegrityScoreFacts.clampAndRound_inRange.
Qed.

(** X17.  When [Math.pow] returns a non-negative number for a base between
    30 and 95, the overall score is at least the base score 45: the lower
    clamp at 30 is never reached. *)
Theorem score_at_least_base (test : RegExp -> string -> bool)
    (pow : Q -> Q -> Q) (description : string) (random : nat -> Q) :
  (forall x, 30 <= x <= 95 -> 0 <= pow x 0.9) ->
  (45 <= score (calculateIntegrityScoreFromDescription test pow description
                  random) <= 95)%Z.
Proof.
  intros Hpow.
  destruct (score_from_pow test pow description random) as (ws & Hws & E).
  rewrite E. specialize (Hpow ws Hws).
  fold (clampAndRound (BASE_SCORE + pow ws 0.9 * 0.6) MIN_SCORE MAX_SCORE).
  split.
  - change 45%Z with (clampAndRound 45 MIN_SCORE MAX_SCORE).
    apply clampAndRound_mono. unfold BASE_SCORE. lra.
  - apply IntegrityScoreFacts.clampAndRound_inRange.
Qed.

(** X18.  When [Math.pow (x, 0.9)] is between 21 and 61 for [x] between 30
    and 95 (as [x ^ 0.9] is: 30 ^ 0.9 = 21.3..., 95 ^ 0.9 = 60.2...), the
    overall score is between 58 and 82 for every description and every
    jitter. *)
Theorem score_band (test : RegExp -> string -> bool)
    (pow : Q -> Q -> Q) (description : string) (random : nat -> Q) :
  (forall x, 30 <= x <= 95 -> 21 <= pow x 0.9 <= 61) ->
  (58 <= score (calculateIntegrityScoreFromDescription test pow description
                  random) <= 82)%Z.
Proof.
  intros Hpow.
  destruct (score_from_pow test pow description random) as (ws & Hws & E).
  rewrite E. specialize (Hpow ws Hws).
  fold (clampAndRound (BASE_SCORE + pow ws 0.9 * 0.6) MIN_SCORE MAX_SCORE).
  split.
  - change 58%Z with (clampAndRound (576 # 10) MIN_SCORE MAX_SCORE).
    apply clampAndRound_mono. unfold BASE_SCORE. lra.
  - change 82%Z with (clampAndRound (816 # 10) MIN_SCORE MAX_SCORE).
    apply clampAndRound_mono. unfold BASE_SCORE. lra.
Qed.

Lemma chord_bounds (x : Q) : 30 <= x <= 95 -> 21 <= chord x 0.9 <= 61.
Proof. unfold chord. intros H. lra. Qed.

Lemma score_at_least_base_witness :
  (45 <= score (calculateIntegrityScoreFromDescription noMatch chord
                  EmptyString midDraw) <= 95)%Z.
Proof.
  apply score_at_least_base. intros x Hx.
  unfold chord. lra.
Defined.

Lemma score_band_witness :
  (58 <= score (calculateIntegrityScoreFromDescription noMatch chord
                  EmptyString midDraw) <= 82)%Z.
Proof.
  apply score_band. intros x Hx. unfold chord. lra.
Defined.

Lemma patterns_mono (test1 test2 : RegExp -> string -> bool) (text : string)
    (w : Q) (ps : list RegExp) :
  (forall pattern, test1 pattern text = true -> test2 pattern text = true) ->
  0 <= w ->
  forall acc1 acc2, acc1 <= acc2 ->
  fold_left (fun points pattern =>
               if test1 pattern text then points + w else points) ps acc1
  <= fold_left (fun points pattern =>
                  if test2 pattern text then points + w else points) ps acc2.
Proof.
  intros Hsub Hw. induction ps as [|p r IH]; intros acc1 acc2 Hacc; simpl;
    [exact Hacc|].
  specialize (Hsub p).
  destruct (test1 p text); [rewrite (Hsub eq_refl)|destruct (test2 p text)];
    apply IH; lra.
Qed.

Lemma points_mono (test1 test2 : RegExp -> string -> bool) (text : string)
    (rules : list KeywordRule) :
  (forall pattern, test1 pattern text = true -> test2 pattern text = true) ->
  nonNegative rules ->
  forall acc1 acc2, acc1 <= acc2 ->
  fold_left (rulePoints test1 text) rules acc1
  <= fold_left (rulePoints test2 text) rules acc2.
Proof.
  intros Hsub. induction 1 as [|r rest Hr Hrest IH]; intros acc1 acc2 Hacc;
    simpl; [exact Hacc|].
  apply IH. unfold rulePoints. apply patterns_mono; assumption.
Qed.

(** X19.  For each of the six rule sets, a text that matches every pattern
    another text matches (and perhaps more) has a raw score that is at least
    as high. *)
Theorem more_keywords_never_lower (test1 test2 : RegExp -> string -> bool)
    (text : string) (rules : list KeywordRule) :
  In rules ruleSets ->
  (forall pattern, test1 pattern text = true -> test2 pattern text = true) ->
  evaluateRules test1 text rules <= evaluateRules test2 text rules.
Proof.
  intros Hin Hsub. unfold evaluateRules.
  assert (Hnn : nonNegative rules).
  { pose proof ruleSets_nonNegative as H. rewrite Forall_forall in H. auto. }
  pose proof (points_mono test1 test2 text rules Hsub Hnn 0 0 (Qle_refl 0)) as H.
  unfold KEYWORD_SCALING. lra.
Qed.

Lemma more_keywords_never_lower_witness :
  evaluateRules noMatch EmptyString MRV_RULES
  <= evaluateRules (fun _ _ => true) EmptyString MRV_RULES.
Proof.
  apply more_keywords_never_lower.
  - unfold ruleSets. simpl. tauto.
  - reflexivity.
Defined.
End IntegrityScoreBounds.

(** * Registration of projects *)

Lemma own_in (key : string) (entries : list (string * string)) (v : string) :
  Sector.own key entries = Some v -> In (key, v) entries.
Proof.
  induction entries as [|[k w] rest IH]; simpl; [discriminate|].
  destruct (String.eqb k key) eqn:Hk.
  - apply String.eqb_eq in Hk. intros H. inversion H; subst. left. reflexivity.
  - intros H. right. apply IH. exact H.
Qed.

Lemma sectorMap_inverse (display column : string) :
  In (display, column) Sector.sectorMap ->
  Sector.sectorColumn (Some display) = Some column
  /\ Sector.displaySector column = display.
Proof.
  unfold Sector.sectorMap. simpl.
  intros H.
  repeat (destruct H as [H | H];
          [inversion H; subst; split; reflexivity|]).
  contradiction.
Qed.

(** X20.  Sectors survive the round trip through the storage: for each of
    the seven sector names, the enum name stored by [registerProject] is
    displayed by [mapProject] as that same name.  Whatever else is
    submitted, what is stored displays as one of the seven names. *)
Theorem sector_round_trip (sector : option string) (column : string) :
  Sector.sectorColumn sector = Some column ->
  In (Sector.displaySector column) (map fst Sector.sectorMap)
  /\ forall display,
       sector = Some display ->
       In display (map fst Sector.sectorMap) ->
       Sector.displaySector column = display.
Proof.
  intros H. split.
  - unfold Sector.sectorColumn in H.
    destruct (Sector.own _ Sector.sectorMap) as [c|] eqn:Hown.
    + inversion H; subst c. apply own_in in Hown.
      destruct (sectorMap_inverse _ _ Hown) as [_ Hd]. rewrite Hd.
      apply (in_map fst) in Hown. exact Hown.
    + destruct (Prisma.memb _ Sector.inheritedNames); [discriminate|].
      inversion H. vm_compute. tauto.
  - intros display Hs Hin. subst sector.
    apply in_map_iff in Hin. destruct Hin as ([d c] & Hd & Hin).
    simpl in Hd. subst d.
    destruct (sectorMap_inverse display c Hin) as [Hc Hdisp].
    rewrite Hc in H. inversion H as [Hcc]. rewrite <- Hcc. exact Hdisp.
Qed.

Section SectorScenario.
Local Open Scope string_scope.

Lemma sector_round_trip_witness :
  Sector.displaySector "BlueCarbon" = "Blue Carbon".
Proof.
  apply (proj2 (sector_round_trip (Some "Blue Carbon") "BlueCarbon" eq_refl)
               "Blue Carbon" eq_refl).
  vm_compute. tauto.
Defined.
End SectorScenario.

Lemma find_app_other {A : Type} (sel : A -> bool) (l : list A) (x : A) :
  sel x = false -> find sel (l ++ [x]) = find sel l.
Proof.
  intros Hx. induction l as [|y r IH]; simpl.
  - rewrite Hx. reflexivity.
  - destruct (sel y); [reflexivity | exact IH].
Qed.

Lemma registerProject_effect (data : ProjectData) (newId : string) (year : Z)
    (projectId : string) (db db' : Database) :
  registerProject data newId year db = (RegisterOk projectId, db') ->
  projectId = newId
  /\ Prisma.findProject db newId = None
  /\ Prisma.userExists db (data_developerId data) = true
  /\ db' = mkDb (users db)
             (carbon_projects db ++ [registeredRow data newId year])
             (carbon_credits db) (transactions db) (buyer_holdings db)
             (compliance_alerts db).
Proof.
  unfold registerProject.
  destruct (data_name data); [|discriminate].
  destruct (Sector.sectorColumn (data_sector data)); [|discriminate].
  unfold createProject. cbn [developerId project_id registeredRow].
  destruct (Prisma.userExists db (data_developerId data)); [|discriminate].
  unfold Prisma.projectExists.
  destruct (Prisma.findProject db newId); [discriminate|].
  cbn [andb negb].
  match goal with
  | |- context [if ?c then _ else _] => destruct c; [|discriminate]
  end.
  intros H. inversion H. auto.
Qed.

(** X21.  A project that [registerProject] has accepted can be looked up
    under the id it returned, with the submitted totalCredits (0 when
    missing) and with availableCredits equal to the submitted value, to
    totalCredits when none was submitted; the lookups of all other ids and
    all other tables are as before.  It is accepted only under an id that
    was free and for a developer who is a user. *)
Theorem register_then_lookup (data : ProjectData) (newId : string) (year : Z)
    (projectId : string) (db db' : Database) :
  registerProject data newId year db = (RegisterOk projectId, db') ->
  Prisma.findProject db' projectId = Some (registeredRow data newId year)
  /\ totalCredits (registeredRow data newId year)
     = orElse (data_totalCredits data) 0
  /\ (data_availableCredits data = None ->
      availableCredits (registeredRow data newId year)
      = totalCredits (registeredRow data newId year))
  /\ (forall id, id <> projectId ->
        Prisma.findProject db' id = Prisma.findProject db id)
  /\ Prisma.findProject db projectId = None
  /\ Prisma.userExists db (data_developerId data) = true
  /\ users db' = users db
  /\ carbon_credits db' = carbon_credits db
  /\ transactions db' = transactions db
  /\ buyer_holdings db' = buyer_holdings db.
Proof.
  intros H. apply registerProject_effect in H.
  destruct H as (Hid & Hfree & Hdev & E). subst projectId db'.
  split; [|split; [|split; [|split]]].
  - unfold Prisma.findProject in *. cbn [carbon_projects].
    rewrite (find_app_none _ _ _ Hfree). cbn [registeredRow project_id].
    rewrite String.eqb_refl. reflexivity.
  - reflexivity.
  - intros Hnone. cbn [registeredRow availableCredits totalCredits].
    rewrite Hnone. reflexivity.
  - intros id Hid. unfold Prisma.findProject. cbn [carbon_projects].
    apply find_app_other. cbn [registeredRow project_id].
    apply String.eqb_neq. congruence.
  - repeat split; assumption.
Qed.

Lemma holdingsOf_unreferenced (id : string) (hs : list BuyerHolding) :
  Forall (fun h => holding_projectId h <> id) hs -> holdingsOf id hs = 0.
Proof.
  unfold holdingsOf. induction 1 as [|h r Hh Hr IH]; [reflexivity|].
  simpl. apply String.eqb_neq in Hh. rewrite Hh. exact IH.
Qed.

Lemma retiredOf_unreferenced (id : string) (ts : list Transaction) :
  Forall (fun t => tx_projectId t <> id) ts -> retiredOf id ts = 0.
Proof.
  unfold retiredOf. induction 1 as [|t r Ht Hr IH]; [reflexivity|].
  simpl. unfold isRetirementOf at 1. apply String.eqb_neq in Ht. rewrite Ht.
  destruct (tx_type t); exact IH.
Qed.

(** X22.  Registration and the conservation equation: when the registry
    satisfies the equation and nothing in the holdings or in the ledger
    refers to the new id, the registry with the registered project satisfies
    it exactly when the project starts with availableCredits equal to
    totalCredits, which is the case whenever availableCredits is not
    submitted. *)
Theorem register_keeps_conservation (data : ProjectData) (newId : string)
    (year : Z) (projectId : string) (db db' : Database) :
  conservation db ->
  unreferenced newId db ->
  registerProject data newId year db = (RegisterOk projectId, db') ->
  (conservation db'
   <-> orElse (data_availableCredits data) (orElse (data_totalCredits data) 0)
       = orElse (data_totalCredits data) 0)
  /\ (data_availableCredits data = None -> conservation db').
Proof.
  intros Hdb [Hhold Hledger] H. apply registerProject_effect in H.
  destruct H as (Hid & Hfree & Hdev & E). subst projectId.
  assert (Hrow : balanced db' (registeredRow data newId year)
                 <-> orElse (data_availableCredits data)
                            (orElse (data_totalCredits data) 0)
                     = orElse (data_totalCredits data) 0).
  { unfold balanced. subst db'.
    cbn [registeredRow project_id totalCredits availableCredits
         buyer_holdings transactions].
    rewrite (holdingsOf_unreferenced _ _ Hhold),
      (retiredOf_unreferenced _ _ Hledger).
    split; intros; lia. }
  assert (Hnew : Prisma.findProject db' newId
                 = Some (registeredRow data newId year)).
  { subst db'. unfold Prisma.findProject in *. cbn [carbon_projects].
    rewrite (find_app_none _ _ _ Hfree). cbn [registeredRow project_id].
    rewrite String.eqb_refl. reflexivity. }
  assert (Hiff : conservation db'
                 <-> orElse (data_availableCredits data)
                            (orElse (data_totalCredits data) 0)
                     = orElse (data_totalCredits data) 0).
  { split.
    - intros Hdb'. apply Hrow. apply (Hdb' newId). exact Hnew.
    - intros Heq id p Hp.
      destruct (String.eqb id newId) eqn:Hidn.
      + apply String.eqb_eq in Hidn. subst id. rewrite Hnew in Hp.
        inversion Hp; subst p. apply Hrow. exact Heq.
      + assert (Hold : Prisma.findProject db id = Some p).
        { rewrite <- Hp. subst db'. unfold Prisma.findProject.
          cbn [carbon_projects]. symmetry. apply find_app_other.
          cbn [registeredRow project_id]. rewrite String.eqb_sym. exact Hidn. }
        specialize (Hdb id p Hold). unfold balanced in *. subst db'.
        exact Hdb. }
  split; [exact Hiff|].
  intros Hnone. apply Hiff. rewrite Hnone. reflexivity.
Qed.

Section RegisterScenario.
Local Open Scope string_scope.

Lemma register_then_lookup_witness :
  option_map availableCredits
    (Prisma.findProject
       (snd (registerProject
               (mkProjectData (Some "Kerala Blue Carbon") "u002"
                              (Some "Blue Carbon") None (Some 8000) None
                              (Some 1150%Q))
               "prj004" 2024 Demo.fresh))
       "prj004")
  = Some 8000.
Proof.
  pose proof (register_then_lookup
                (mkProjectData (Some "Kerala Blue Carbon") "u002"
                               (Some "Blue Carbon") None (Some 8000) None
                               (Some 1150%Q))
                "prj004" 2024 "prj004" Demo.fresh
                (snd (registerProject
                        (mkProjectData (Some "Kerala Blue Carbon") "u002"
                                       (Some "Blue Carbon") None (Some 8000)
                                       None (Some 1150%Q))
                        "prj004" 2024 Demo.fresh))
                eq_refl) as [Hfound _].
  rewrite Hfound. reflexivity.
Defined.

Lemma register_keeps_conservation_witness :
  conservation
    (snd (registerProject
            (mkProjectData (Some "Kerala Blue Carbon") "u002"
                           (Some "Blue Carbon") None (Some 8000) None
                           (Some 1150%Q))
            "prj004" 2024 Demo.fresh)).
Proof.
  apply (proj2 (register_keeps_conservation
                  (mkProjectData (Some "Kerala Blue Carbon") "u002"
                                 (Some "Blue Carbon") None (Some 8000) None
                                 (Some 1150%Q))
                  "prj004" 2024 "prj004" Demo.fresh _
                  (conservationb_sound Demo.fresh eq_refl)
                  (conj (Forall_nil _) (Forall_nil _))
                  eq_refl)).
  reflexivity.
Defined.
End RegisterScenario.

(** ** Open compliance alerts *)

Lemma openAlerts_perform (db : Database) (op : Operation) :
  openAlerts (perform db op) = openAlerts db.
Proof.
  unfold openAlerts.
  destruct op as [projectId n clock txId | projectId n buyer txId hash
                 | projectId n buyer reason txId]; simpl.
  - unfold issueCredits, issueAfterRead.
    destruct (Prisma.findProject db projectId) as [project|]; [|reflexivity].
    destruct (issueTransaction projectId project n clock txId db)
      as [[out db']|] eqn:H; [|reflexivity].
    apply issueTransaction_effect in H. destruct H as (_ & E & _).
    subst db'. reflexivity.
  - unfold purchaseCredits, purchaseAfterRead.
    destruct (Prisma.findProject db projectId) as [project|]; [|reflexivity].
    destruct (availableCredits project <? n); [reflexivity|].
    destruct (purchaseTransaction project projectId n buyer txId hash db)
      as [db'|] eqn:H; [|reflexivity].
    apply purchase_tables in H. destruct H as (_ & _ & A & _).
    simpl. rewrite A. reflexivity.
  - unfold retireCredits.
    destruct (retireTransaction projectId n buyer reason txId db)
      as [db'|] eqn:H; [|reflexivity].
    apply retire_tables in H. destruct H as (_ & A & _).
    simpl. rewrite A, filter_app. simpl. apply app_nil_r.
Qed.

(** X23.  The alerts that the compliance view selects (those not resolved)
    are the same after any sequence of Issue, Purchase and Retire: the only
    alert an action writes is the note of a retirement, which is created
    resolved and so never listed. *)
Theorem actions_raise_no_open_alert (ops : list Operation) (db : Database) :
  openAlerts (performAll db ops) = openAlerts db.
Proof.
  unfold performAll. revert db.
  induction ops as [|op rest IH]; intros db; simpl; [reflexivity|].
  rewrite IH. apply openAlerts_perform.
Qed.

(** * Accounts *)

Module AuthFacts.
Import Auth.
Local Open Scope list_scope.

Section Bcrypt.
Variable compare : string -> string -> bool.
Variable hash : string -> string -> string.

Lemma register_created (body : RegisterBody) (newId salt now : string)
    (table table' : list UserRow) (u : User) :
  register hash body newId salt now table = (Created u, table') ->
  exists name email password role,
    body_name body = Some name /\ body_email body = Some email
    /\ body_password body = Some password /\ body_role body = Some role
    /\ In role roles
    /\ findByEmail table email = None
    /\ table' = table
                ++ [mkUserRow newId name email (hash salt password) role
                              (body_organization body) now]
    /\ u = mkUser newId name email role (body_organization body) now.
Proof.
  unfold register.
  destruct (body_name body) as [name|]; [|discriminate].
  destruct (body_email body) as [email|]; [|discriminate].
  destruct (body_password body) as [password|]; [|discriminate].
  destruct (body_role body) as [role|]; [|discriminate].
  destruct (negb _); [discriminate|].
  destruct (Prisma.memb role roles) eqn:Hrole; [|discriminate].
  cbn [negb].
  destruct (findByEmail table email) eqn:Hfind; [discriminate|].
  intros H. inversion H; subst.
  exists name, email, password, role.
  split; [reflexivity|]. split; [reflexivity|]. split; [reflexivity|].
  split; [reflexivity|]. split; [|split; [exact Hfind|split; reflexivity]].
  unfold Prisma.memb in Hrole. apply existsb_exists in Hrole.
  destruct Hrole as (r & Hin & Hr). apply String.eqb_eq in Hr. subst r.
  exact Hin.
Qed.

Lemma register_table (body : RegisterBody) (newId salt now : string)
    (table : list UserRow) :
  snd (register hash body newId salt now table) = table
  \/ exists u row,
       register hash body newId salt now table = (Created u, table ++ [row])
       /\ body_email body = Some (user_email row)
       /\ findByEmail table (user_email row) = None.
Proof.
  destruct (register hash body newId salt now table) as [[u|e|e] table']
    eqn:H.
  - right. apply register_created in H.
    destruct H as (name & email & password & role & _ & He & _ & _ & _ & Hf
                   & Et & _).
    subst table'. eexists; eexists. split; [reflexivity|]. split; assumption.
  - left. unfold register in H.
    destruct (body_name body), (body_email body), (body_password body),
      (body_role body); try (inversion H; reflexivity).
    destruct (negb _); [inversion H; reflexivity|].
    destruct (negb _); [inversion H; reflexivity|].
    destruct (findByEmail table s0); inversion H; reflexivity.
  - left. unfold register in H.
    destruct (body_name body), (body_email body), (body_password body),
      (body_role body); try (inversion H; reflexivity).
    destruct (negb _); [inversion H; reflexivity|].
    destruct (negb _); [inversion H; reflexivity|].
    destruct (findByEmail table s0); inversion H; reflexivity.
Qed.

Lemma findByEmail_none (table : list UserRow) (e : string) :
  findByEmail table e = None -> ~ In e (emails table).
Proof.
  unfold findByEmail, emails. intros Hnone Hin.
  apply in_map_iff in Hin. destruct Hin as (u & Hu & Hin).
  apply (find_none _ _ Hnone) in Hin. rewrite Hu, String.eqb_refl in Hin.
  discriminate.
Qed.

(** X24.  Registration keeps e-mail addresses unique: when no two users
    share an address, no request to the registration route, accepted or
    refused, leads to a table in which two users do. *)
Theorem registration_keeps_emails_unique (body : RegisterBody)
    (newId salt now : string) (table : list UserRow) :
  NoDup (emails table) ->
  NoDup (emails (snd (register hash body newId salt now table))).
Proof.
  intros Hnd.
  destruct (register_table body newId salt now table)
    as [E | (u & row & E & _ & Hfree)].
  - rewrite E. exact Hnd.
  - rewrite E. cbn [snd]. unfold emails. rewrite map_app. cbn [map].
    apply NoDup_snoc; [exact Hnd|]. apply findByEmail_none. exact Hfree.
Qed.

(** X25.  A user who has just registered can log in: when [bcrypt.compare]
    accepts a password against every hash [bcrypt.hash] makes of it, logging
    in with the registered address and password succeeds and returns the
    user that the registration returned, with the role that was asked for. *)
Theorem register_then_login (body : RegisterBody) (newId salt now : string)
    (table table' : list UserRow) (u : User) (e p : string) :
  (forall s password, compare password (hash s password) = true) ->
  register hash body newId salt now table = (Created u, table') ->
  body_email body = Some e ->
  body_password body = Some p ->
  loginUser compare table' e p = LoginOk u
  /\ body_role body = Some (role u).
Proof.
  intros Hbcrypt H He Hp. apply register_created in H.
  destruct H as (name & email & password & r & _ & He' & Hp' & Hr & _ & Hfree
                 & Et & Eu).
  rewrite He in He'. inversion He'; subst email.
  rewrite Hp in Hp'. inversion Hp'; subst password.
  subst table' u. split; [|exact Hr].
  unfold loginUser, findByEmail in *.
  rewrite (find_app_none _ _ _ Hfree). cbn [user_email].
  rewrite String.eqb_refl. cbn [user_passwordHash]. rewrite Hbcrypt.
  reflexivity.
Qed.

(** X26.  A registration does not disturb the other accounts: for every
    address that already has a user, and for every address other than the
    one in the request, a login gives the same result after the request as
    before it. *)
Theorem registration_leaves_logins (body : RegisterBody)
    (newId salt now : string) (table : list UserRow) (e p : string) :
  findByEmail table e <> None \/ body_email body <> Some e ->
  loginUser compare (snd (register hash body newId salt now table)) e p
  = loginUser compare table e p.
Proof.
  intros Hcase.
  destruct (register_table body newId salt now table)
    as [E | (u & row & E & Hrow & Hfree)].
  - rewrite E. reflexivity.
  - rewrite E. cbn [snd]. unfold loginUser, findByEmail in *.
    destruct (String.eqb (user_email row) e) eqn:Hsame.
    + apply String.eqb_eq in Hsame. subst e.
      destruct Hcase as [Hin | Hne]; [|congruence].
      rewrite Hfree in Hin. contradiction.
    + rewrite (find_app_other (fun u => String.eqb (user_email u) e)
                                table row Hsame).
      reflexivity.
Qed.

End Bcrypt.

Section AccountScenario.
Local Open Scope string_scope.

Lemma registration_keeps_emails_unique_witness :
  NoDup (emails (snd (register plainHash applicant "u010" "salt"
                               "2026-01-01T00:00:00.000Z" []))).
Proof.
  apply registration_keeps_emails_unique. constructor.
Defined.

Lemma register_then_login_witness :
  loginUser plainCompare
    (snd (register plainHash applicant "u010" "salt"
                   "2026-01-01T00:00:00.000Z" []))
    "asha@example.org" "S3cret!"
  = LoginOk (mkUser "u010" "Asha Rao" "asha@example.org" "admin" None
                    "2026-01-01T00:00:00.000Z").
Proof.
  apply (proj1 (register_then_login plainCompare plainHash applicant
                  "u010" "salt" "2026-01-01T00:00:00.000Z" [] _ _
                  "asha@example.org" "S3cret!"
                  (fun _ password => String.eqb_refl password)
                  eq_refl eq_refl eq_refl)).
Defined.

Lemma registration_leaves_logins_witness :
  loginUser plainCompare
    (snd (register plainHash applicant "u010" "salt"
                   "2026-01-01T00:00:00.000Z" []))
    "other@example.org" "guess"
  = loginUser plainCompare [] "other@example.org" "guess".
Proof.
  apply registration_leaves_logins. right. discriminate.
Defined.
End AccountScenario.

End AuthFacts.

(** * The integrity-score route *)

Module IntegrityApiFacts.
Import IntegrityScore IntegrityApi.






End IntegrityApiFacts.
